(** * FlightBot: quota tracker, flight data client and tracking poll cycle

    A shallow embedding of [src/services/apiUsageTracker.ts],
    [src/services/flightService.ts] and [src/services/flightMonitor.ts],
    followed by the properties of these functions.

    Conventions of the embedding.
    - A JavaScript string is a [string]; each [ascii] stands for one UTF-16
      code unit in the range 0..255, so [String.length] is [.length].
    - [undefined] and [null] are [None]; an optional field is an [option].
    - A [Date] is the integer [getTime()] gives (milliseconds), a [number]
      that only ever holds a count is a [Z].
    - A [Map] is an association list in insertion order with distinct keys.
    - [console.*] calls are not part of the model. *)

From Stdlib Require Import String Ascii List ZArith QArith Qround Bool Lia.
From Stdlib Require Import Permutation Sorted.
Import ListNotations.
Open Scope string_scope.
Open Scope Z_scope.

(** ** JavaScript strings *)

Module Js.

Definition code (c : ascii) : nat := nat_of_ascii c.

Definition between (lo hi : nat) (c : ascii) : bool :=
  (Nat.leb lo (code c) && Nat.leb (code c) hi)%bool.

Definition isUpper : ascii -> bool := between 65 90.
Definition isLower : ascii -> bool := between 97 122.
Definition isDigit : ascii -> bool := between 48 57.
Definition isLetter (c : ascii) : bool := isUpper c || isLower c.

(** [String.prototype.toLowerCase] on code units 0..255: the ASCII capitals
    and the Latin-1 capitals (all of 192..222 but the multiplication sign). *)
Definition lowerChar (c : ascii) : ascii :=
  if (isUpper c || (between 192 222 c && negb (Nat.eqb (code c) 215)))%bool
  then ascii_of_nat (code c + 32)
  else c.

Fixpoint toLowerCase (s : string) : string :=
  match s with
  | EmptyString => EmptyString
  | String c s' => String (lowerChar c) (toLowerCase s')
  end.

(** [toUpperCase] on ASCII strings, the only ones the source applies it to
    here (those [isTailNumber] accepted).  Beyond ASCII it is not
    [String.prototype.toUpperCase], which maps code unit 223 to two
    characters and 181 and 255 out of the range 0..255. *)
Definition upperChar (c : ascii) : ascii :=
  if isLower c then ascii_of_nat (code c - 32) else c.

Fixpoint toUpperCase (s : string) : string :=
  match s with
  | EmptyString => EmptyString
  | String c s' => String (upperChar c) (toUpperCase s')
  end.

Fixpoint filter (p : ascii -> bool) (s : string) : string :=
  match s with
  | EmptyString => EmptyString
  | String c s' => if p c then String c (filter p s') else filter p s'
  end.

Definition length (s : string) : Z := Z.of_nat (String.length s).

(** Truthiness of a [string | undefined] value. *)
Definition truthy (o : option string) : bool :=
  match o with
  | Some s => negb (s =? "")%string
  | None => false
  end.

(** [a ?? b] *)
Definition nullish {A : Type} (a : option A) (b : option A) : option A :=
  match a with
  | Some _ => a
  | None => b
  end.

(** [a ?? d] with a default that is not nullish *)
Definition orDefault {A : Type} (a : option A) (d : A) : A :=
  match a with
  | Some x => x
  | None => d
  end.

(** [a?.f] *)
Definition chain {A B : Type} (a : option A) (f : A -> option B) : option B :=
  match a with
  | Some x => f x
  | None => None
  end.

End Js.

Infix "??" := Js.nullish (at level 61, left associativity).

(** ** Regular expressions

    The three patterns of the source are anchored on both sides and used
    through [RegExp.prototype.test], so a test is membership of the whole
    string in the pattern's language; that is decided here with derivatives. *)

Module Regex.

Inductive re : Type :=
| Void
| Eps
| Class (p : ascii -> bool)
| Cat (r s : re)
| Alt (r s : re).

Fixpoint nullable (r : re) : bool :=
  match r with
  | Void => false
  | Eps => true
  | Class _ => false
  | Cat r s => nullable r && nullable s
  | Alt r s => nullable r || nullable s
  end.

Fixpoint deriv (c : ascii) (r : re) : re :=
  match r with
  | Void => Void
  | Eps => Void
  | Class p => if p c then Eps else Void
  | Cat r s =>
      if nullable r then Alt (Cat (deriv c r) s) (deriv c s)
      else Cat (deriv c r) s
  | Alt r s => Alt (deriv c r) (deriv c s)
  end.

Fixpoint test (r : re) (s : string) : bool :=
  match s with
  | EmptyString => nullable r
  | String c s' => test (deriv c r) s'
  end.

(** [r?] *)
Definition opt (r : re) : re := Alt Eps r.

(** [r{n}] *)
Fixpoint times (n : nat) (r : re) : re :=
  match n with
  | O => Eps
  | S n' => Cat r (times n' r)
  end.

(** [r{0,n}] *)
Fixpoint upto (n : nat) (r : re) : re :=
  match n with
  | O => Eps
  | S n' => opt (Cat r (upto n' r))
  end.

(** [r{m,n}] *)
Definition range (m n : nat) (r : re) : re := Cat (times m r) (upto (n - m) r).

(** Atoms under the [i] flag (without [u]): a letter class or a letter
    matches both cases of the ASCII letter and nothing else. *)
Definition letter : re := Class Js.isLetter.                        (* [A-Z] *)
Definition digit : re := Class Js.isDigit.                          (* [0-9] *)
Definition alnum : re := Class (fun c => Js.isLetter c || Js.isDigit c).  (* [A-Z0-9] *)
Definition lit (a : ascii) : re :=
  Class (fun c => Ascii.eqb (Js.upperChar c) (Js.upperChar a)).

End Regex.

(** ** Wall clock

    One reading of [new Date()]: the fields the source asks of it.  The
    month and the year are those of the local calendar, as [getMonth] and
    [getFullYear] return them. *)

Record Clock : Type := mkClock {
  getTime : Z;
  getMonth : Z;
  getFullYear : Z;
  toISOString : string
}.

(** ** Types of [src/types.ts] *)

Module FlightIdentifier.
Record t : Type := mk {
  iata : option string;
  icao : option string;
  number : option string;
  flight_number : option string
}.
End FlightIdentifier.

Module AirlineInfo.
Record t : Type := mk {
  name : option string;
  iata : option string;
  icao : option string
}.
End AirlineInfo.

Module AirportInfo.
Record t : Type := mk {
  airport : option string;
  iata : option string;
  icao : option string;
  scheduled : option string;
  estimated : option string;
  actual : option string;
  gate : option string;
  terminal : option string
}.
End AirportInfo.

Module AircraftInfo.
Record t : Type := mk {
  registration : option string;
  type : option string
}.
End AircraftInfo.

Module NormalizedFlight.
Record t : Type := mk {
  flight : FlightIdentifier.t;
  flight_status : string;
  airline : option AirlineInfo.t;
  departure : option AirportInfo.t;
  arrival : option AirportInfo.t;
  aircraft : option AircraftInfo.t;
  progress_percent : option Z;
  route : option string;
  cancelled : option bool;
  diverted : option bool;
  searchType : option string;
  faFlightId : option string
}.
End NormalizedFlight.

(** The [origin] and [destination] objects of a provider record. *)
Module FlightAwareAirport.
Record t : Type := mk {
  name : option string;
  code_iata : option string;
  code_icao : option string
}.
End FlightAwareAirport.

Module FlightAwareFlight.
Record t : Type := mk {
  ident_iata : option string;
  ident_icao : option string;
  ident : option string;
  flight_number : option string;
  status : option string;
  operator : option string;
  operator_iata : option string;
  operator_icao : option string;
  origin : option FlightAwareAirport.t;
  destination : option FlightAwareAirport.t;
  scheduled_out : option string;
  estimated_out : option string;
  actual_out : option string;
  scheduled_in : option string;
  estimated_in : option string;
  actual_in : option string;
  gate_origin : option string;
  terminal_origin : option string;
  gate_destination : option string;
  terminal_destination : option string;
  registration : option string;
  aircraft_type : option string;
  progress_percent : option Z;
  route : option string;
  cancelled : option bool;
  diverted : option bool;
  fa_flight_id : option string
}.
End FlightAwareFlight.

Module TrackingInfo.
Record t : Type := mk {
  flight : NormalizedFlight.t;
  channelId : string;
  userId : string;
  identifier : string
}.
End TrackingInfo.

Module TrackedFlight.
Record t : Type := mk {
  flight : NormalizedFlight.t;
  channelId : string;
  userId : string;
  identifier : string;
  lastStatus : string;
  lastUpdated : Z;
  updateCount : Z;
  hasLanded : bool
}.
End TrackedFlight.

Module ApiRequest.
Record t : Type := mk {
  timestamp : string;
  type : string;
  flightId : option string
}.
End ApiRequest.

Module UsageData.
Record t : Type := mk {
  month : Z;
  year : Z;
  count : Z;
  requests : list ApiRequest.t;
  lastReset : string
}.
End UsageData.

Inductive UsageLevel : Type := healthy | warning | critical.

(** Without [emoji], empty in the source, and [resetsOn], a calendar date in
    the local time zone that no decision reads. *)

Module ApiUsageStatus.
Record t : Type := mk {
  status : UsageLevel;
  used : Z;
  remaining : Z;
  limit : Z;
  percentage : Z
}.
End ApiUsageStatus.

(** ** [ApiUsageTracker]

    The object's mutable fields are [monthlyLimit] (set once, by the
    constructor) and [usage].  [saveUsage] writes [usage] to a file inside a
    [try] that swallows every failure and changes no field, so it leaves no
    trace here.  The percentage is the exact rational where the source has
    a double: the two agree on the comparisons with the thresholds made
    here for a positive [monthlyLimit] far below 2^53; they differ at
    [monthlyLimit = 0] (the double is NaN or Infinity) and in the last bit
    of some quotients, which only the rounded [percentage] of
    [getUsageStatus] can show (29 of 200 is 14 there and 15 here). *)

Module ApiUsageTracker.

Record t : Type := mk {
  monthlyLimit : Z;
  usage : UsageData.t
}.

Definition warningThreshold : Q := 8 # 10.
Definition criticalThreshold : Q := 95 # 100.

(** A method: it reads the clock, returns a value and leaves a new state. *)
Definition M (A : Type) : Type := Clock -> t -> A * t.

Definition ret {A : Type} (a : A) : M A := fun _ s => (a, s).

Definition bind {A B : Type} (m : M A) (k : A -> M B) : M B :=
  fun now s => let (a, s') := m now s in k a now s'.

Definition modify (f : Clock -> t -> t) : M unit := fun now s => (tt, f now s).

Definition read {A : Type} (f : Clock -> t -> A) : M A := fun now s => (f now s, s).

Definition when (b : bool) (m : M unit) : M unit := if b then m else ret tt.

Declare Scope tracker_scope.
Delimit Scope tracker_scope with tracker.
Notation "x <- m ;; k" := (bind m (fun x => k))
  (at level 100, m at next level, right associativity) : tracker_scope.
Notation "m ;;; k" := (bind m (fun _ => k))
  (at level 100, right associativity) : tracker_scope.
Local Open Scope tracker_scope.

Definition resetUsage : M unit :=
  modify (fun now s =>
    mk (monthlyLimit s)
       (UsageData.mk (getMonth now) (getFullYear now) 0 [] (toISOString now))).

Definition isNewMonth : M bool :=
  read (fun now s =>
    negb (UsageData.month (usage s) =? getMonth now)
    || negb (UsageData.year (usage s) =? getFullYear now)).

(** [if (this.isNewMonth()) { this.resetUsage(); }] *)
Definition rollover : M unit :=
  b <- isNewMonth ;; when b resetUsage.

Definition canMakeRequest : M bool :=
  rollover ;;;
  read (fun _ s => UsageData.count (usage s) <? monthlyLimit s).

Definition getRemainingRequests : M Z :=
  rollover ;;;
  read (fun _ s => Z.max 0 (monthlyLimit s - UsageData.count (usage s))).

Definition getUsagePercentage : M Q :=
  rollover ;;;
  read (fun _ s =>
    (inject_Z (UsageData.count (usage s)) / inject_Z (monthlyLimit s) * 100)%Q).

(** [requests.slice(-100)] *)
Definition lastHundred (l : list ApiRequest.t) : list ApiRequest.t :=
  skipn (List.length l - 100) l.

Definition recordRequest (type : string) (flightId : option string) : M unit :=
  rollover ;;;
  modify (fun now s =>
    let u := usage s in
    let requests := (UsageData.requests u
                     ++ [ApiRequest.mk (toISOString now) type flightId])%list in
    let requests := if (100 <? Z.of_nat (List.length requests))
                    then lastHundred requests else requests in
    mk (monthlyLimit s)
       (UsageData.mk (UsageData.month u) (UsageData.year u)
                     (UsageData.count u + 1) requests (UsageData.lastReset u))) ;;;
  (* the percentage is read again, for the two console warnings only *)
  _ <- getUsagePercentage ;;
  ret tt.

(** [Math.round] *)
Definition round (q : Q) : Z := Qfloor (q + (1 # 2)).

Definition getUsageStatus : M ApiUsageStatus.t :=
  remaining <- getRemainingRequests ;;
  percentage <- getUsagePercentage ;;
  read (fun _ s =>
    let status :=
      if Qle_bool (criticalThreshold * 100) percentage then critical
      else if Qle_bool (warningThreshold * 100) percentage then warning
      else healthy in
    ApiUsageStatus.mk status (UsageData.count (usage s)) remaining
                      (monthlyLimit s) (round percentage)).

Definition shouldLimitTracking : M bool :=
  percentage <- getUsagePercentage ;;
  ret (Qle_bool (criticalThreshold * 100) percentage).

(** What [loadUsage] finds at [usageFile]: no file, a file that cannot be
    read or parsed, or a stored record. *)
Inductive StoredFile : Type :=
| Missing
| Unreadable
| Stored (data : UsageData.t).

(** The constructor's [loadUsage], for a [monthlyLimit] already parsed.
    [usage] is unset until it runs, and [resetUsage] does not read it. *)
Definition loadUsage (monthlyLimit : Z) (file : StoredFile) : M unit :=
  fun now _ =>
    let unset := UsageData.mk 0 0 0 [] "" in
    match file with
    | Stored data => rollover now (mk monthlyLimit data)
    | Missing => (resetUsage ;;; rollover) now (mk monthlyLimit unset)
    | Unreadable => resetUsage now (mk monthlyLimit unset)
    end.

End ApiUsageTracker.

(** ** The flight data provider

    What [this.api.get(path)] settles to: a response whose [data.flights]
    is a list of provider records, a response whose [data] has no [flights]
    array, or a rejection with the [error.response?.status] the source
    inspects. *)

Inductive HttpResponse : Type :=
| Fulfilled (flights : list FlightAwareFlight.t)
| Malformed
| Failed (status : option Z).

Definition Network : Type := string -> HttpResponse.

(** The errors [getFlightData] rejects with, told apart by message:
    - [IdentifierTooShort]: ['Flight identifier too short'];
    - [QuotaExceeded used limit]: ['API usage limit reached (used/limit).
      Resets on ...'], with the two numbers of [getUsageStatus];
    - [InvalidFormat]: ['Invalid flight identifier format'];
    - [AuthenticationFailed]: ['API authentication failed'];
    - [RateLimitExceeded]: ['API rate limit exceeded'];
    - [TransportError status]: the provider's error, thrown again as it came;
    - [TypeError]: what reading [response.data.flights.length] throws when
      the answer has no [flights] array. *)
Inductive FlightError : Type :=
| IdentifierTooShort
| QuotaExceeded (used limit : Z)
| InvalidFormat
| AuthenticationFailed
| RateLimitExceeded
| TransportError (status : option Z)
| TypeError.

(** How a promise settles. *)
Inductive Settled (A : Type) : Type :=
| Resolved (a : A)
| Rejected (e : FlightError).
Arguments Resolved {A} a.
Arguments Rejected {A} e.

Inductive SearchType : Type := flight_number | tail_number.

(** ** [FlightService] *)

Module FlightService.

Import ApiUsageTracker.
Local Open Scope tracker_scope.

Definition searchTypeName (k : SearchType) : string :=
  match k with
  | flight_number => "flight_number"
  | tail_number => "tail_number"
  end.

(** [/^[A-Z]{2,3}[0-9]{1,4}[A-Z]?$/i] *)
Definition flightNumberPattern : Regex.re :=
  Regex.Cat (Regex.range 2 3 Regex.letter)
    (Regex.Cat (Regex.range 1 4 Regex.digit) (Regex.opt Regex.letter)).

(** [/^[A-Z]-?[A-Z0-9]{1,5}$/i] *)
Definition internationalTailPattern : Regex.re :=
  Regex.Cat Regex.letter
    (Regex.Cat (Regex.opt (Regex.lit "-")) (Regex.range 1 5 Regex.alnum)).

(** [/^N[0-9]{1,5}[A-Z]{0,2}$/i] *)
Definition usTailPattern : Regex.re :=
  Regex.Cat (Regex.lit "N")
    (Regex.Cat (Regex.range 1 5 Regex.digit) (Regex.range 0 2 Regex.letter)).

Definition isFlightNumber (identifier : string) : bool :=
  Regex.test flightNumberPattern identifier.

Definition isTailNumber (identifier : string) : bool :=
  Regex.test internationalTailPattern identifier
  || Regex.test usTailPattern identifier.

(** [identifier.replace(/[^A-Z0-9]/gi, '')] *)
Definition cleanIdentifier (identifier : string) : string :=
  Js.filter (fun c => Js.isLetter c || Js.isDigit c) identifier.

Fixpoint lookup {A : Type} (k : string) (table : list (string * A)) : option A :=
  match table with
  | [] => None
  | (k', v) :: rest => if (k =? k')%string then Some v else lookup k rest
  end.

(** Own keys of the literal only.  The source indexes an object, so for a
    status that names a member of [Object.prototype] ('constructor',
    'toString', ...) it returns that member and no string; such a status is
    outside this definition, and outside [formatStatus] and
    [getStatusEmoji] below as well. *)
Definition mapFlightAwareStatus (status : option string) : string :=
  let statusMap :=
    [("Scheduled", "scheduled"); ("Active", "active"); ("Completed", "landed");
     ("Cancelled", "cancelled"); ("Diverted", "diverted")] in
  Js.orDefault (lookup (Js.orDefault status "") statusMap)
               (Js.toLowerCase (Js.orDefault status "unknown")).

Definition normalizeFlightData (flight : FlightAwareFlight.t) (searchType : string)
  : NormalizedFlight.t :=
  let origin := FlightAwareFlight.origin flight in
  let destination := FlightAwareFlight.destination flight in
  NormalizedFlight.mk
    (FlightIdentifier.mk
       (FlightAwareFlight.ident_iata flight)
       (FlightAwareFlight.ident_icao flight)
       (FlightAwareFlight.ident flight)
       (FlightAwareFlight.flight_number flight))
    (mapFlightAwareStatus (FlightAwareFlight.status flight))
    (Some (AirlineInfo.mk
       (Some (Js.orDefault (FlightAwareFlight.operator flight) "Unknown Airline"))
       (FlightAwareFlight.operator_iata flight)
       (FlightAwareFlight.operator_icao flight)))
    (Some (AirportInfo.mk
       (Some (Js.orDefault
                (Js.chain origin FlightAwareAirport.name
                 ?? Js.chain origin FlightAwareAirport.code_iata) "Unknown"))
       (Js.chain origin FlightAwareAirport.code_iata)
       (Js.chain origin FlightAwareAirport.code_icao)
       (FlightAwareFlight.scheduled_out flight)
       (FlightAwareFlight.estimated_out flight)
       (FlightAwareFlight.actual_out flight)
       (FlightAwareFlight.gate_origin flight)
       (FlightAwareFlight.terminal_origin flight)))
    (Some (AirportInfo.mk
       (Some (Js.orDefault
                (Js.chain destination FlightAwareAirport.name
                 ?? Js.chain destination FlightAwareAirport.code_iata) "Unknown"))
       (Js.chain destination FlightAwareAirport.code_iata)
       (Js.chain destination FlightAwareAirport.code_icao)
       (FlightAwareFlight.scheduled_in flight)
       (FlightAwareFlight.estimated_in flight)
       (FlightAwareFlight.actual_in flight)
       (FlightAwareFlight.gate_destination flight)
       (FlightAwareFlight.terminal_destination flight)))
    (Some (AircraftInfo.mk
       (FlightAwareFlight.registration flight)
       (FlightAwareFlight.aircraft_type flight)))
    (FlightAwareFlight.progress_percent flight)
    (FlightAwareFlight.route flight)
    (FlightAwareFlight.cancelled flight)
    (FlightAwareFlight.diverted flight)
    (Some searchType)
    (FlightAwareFlight.fa_flight_id flight).

(** [response.data.flights.length > 0 ? normalize(flights[0]) : null] *)
Definition firstFlight (flights : list FlightAwareFlight.t) (k : SearchType)
  : option NormalizedFlight.t :=
  match flights with
  | flight :: _ => Some (normalizeFlightData flight (searchTypeName k))
  | [] => None
  end.

Definition getFlightByNumber (net : Network) (flightNumber : string)
  : M (Settled (option NormalizedFlight.t)) :=
  match net ("/flights/" ++ flightNumber) with
  | Fulfilled flights =>
      recordRequest "flight_lookup" (Some flightNumber) ;;;
      ret (Resolved (firstFlight flights flight_number))
  | Malformed =>
      (* the call is recorded before [flights.length] is read *)
      recordRequest "flight_lookup" (Some flightNumber) ;;;
      ret (Rejected TypeError)
  | Failed status => ret (Rejected (TransportError status))
  end.

Definition getFlightByTailNumber (net : Network) (tailNumber : string)
  : M (Settled (option NormalizedFlight.t)) :=
  let response :=
    match net ("/flights/" ++ tailNumber) with
    | Failed (Some 400) => net ("/aircraft/" ++ tailNumber ++ "/flights")
    | r => r
    end in
  match response with
  | Fulfilled flights =>
      recordRequest "tail_lookup" (Some tailNumber) ;;;
      ret (Resolved (firstFlight flights tail_number))
  | Malformed =>
      recordRequest "tail_lookup" (Some tailNumber) ;;;
      ret (Rejected TypeError)
  | Failed status => ret (Rejected (TransportError status))
  end.

(** The [catch] of [getFlightData]: every error thrown in its [try] goes
    through it, the validation errors too, which carry no [response]. *)
Definition rethrow (e : FlightError) : FlightError :=
  match e with
  | TransportError (Some 401) => AuthenticationFailed
  | TransportError (Some 429) => RateLimitExceeded
  | _ => e
  end.

(** [getFlightData] up to its first [await]: the checks made before the
    provider is asked, in the order the source makes them. *)
Definition prepare (identifier : string) : M (FlightError + SearchType * string) :=
  if ((identifier =? "")%string || (Js.length identifier <? 2))%bool
  then ret (inl IdentifierTooShort)
  else
    allowed <- canMakeRequest ;;
    if negb allowed
    then
      status <- getUsageStatus ;;
      ret (inl (QuotaExceeded (ApiUsageStatus.used status)
                              (ApiUsageStatus.limit status)))
    else
      let clean := cleanIdentifier identifier in
      if Js.length clean <? 2
      then ret (inl InvalidFormat)
      else
        let isFlightNum := isFlightNumber clean in
        let isTailNum := isTailNumber clean in
        if (negb isFlightNum && negb isTailNum)%bool
        then ret (inl InvalidFormat)
        else if isFlightNum
             then ret (inr (flight_number, clean))
             else ret (inr (tail_number, clean)).

(** [getFlightData] from its first [await] on. *)
Definition complete (net : Network) (k : SearchType) (clean : string)
  : M (Settled (option NormalizedFlight.t)) :=
  r <- match k with
       | flight_number => getFlightByNumber net clean
       | tail_number => getFlightByTailNumber net clean
       end ;;
  ret match r with
      | Resolved flight => Resolved flight
      | Rejected e => Rejected (rethrow e)
      end.

(** [now] is the clock when the call is made, [later] when the provider
    has answered. *)
Definition getFlightData (net : Network) (identifier : string)
           (now later : Clock) (s : ApiUsageTracker.t)
  : Settled (option NormalizedFlight.t) * ApiUsageTracker.t :=
  let (checked, s1) := prepare identifier now s in
  match checked with
  | inl e => (Rejected (rethrow e), s1)
  | inr (k, clean) => complete net k clean later s1
  end.

(** *** Formatting *)

(** [flight.flight.iata ?? flight.flight.icao ?? flight.flight.number ?? 'Unknown'] *)
Definition flightNumberOf (flight : NormalizedFlight.t) : string :=
  let id := NormalizedFlight.flight flight in
  Js.orDefault (FlightIdentifier.iata id ?? FlightIdentifier.icao id
                ?? FlightIdentifier.number id) "Unknown".

(** [flight.airline?.name] *)
Definition airlineName (flight : NormalizedFlight.t) : option string :=
  Js.chain (NormalizedFlight.airline flight) AirlineInfo.name.

(** [!airline || airline === 'Unknown Airline'] *)
Definition isPrivateAviation (flight : NormalizedFlight.t) : bool :=
  let airline := airlineName flight in
  negb (Js.truthy airline)
  || match airline with
     | Some a => (a =? "Unknown Airline")%string
     | None => false
     end.

(** [flight.aircraft?.registration] *)
Definition registrationOf (flight : NormalizedFlight.t) : option string :=
  Js.chain (NormalizedFlight.aircraft flight) AircraftInfo.registration.

(** [displayTitle] of [formatFlightMessage]. *)
Definition displayTitle (flight : NormalizedFlight.t)
           (searchedIdentifier : option string) : string :=
  let flightNumber := flightNumberOf flight in
  let isSearchedByTail :=
    match searchedIdentifier with
    | Some s => (negb (s =? "")%string && isTailNumber s)%bool
    | None => false
    end in
  if (isPrivateAviation flight && Js.truthy (registrationOf flight))%bool
  then Js.orDefault (registrationOf flight) ""
  else if (isPrivateAviation flight && isSearchedByTail)%bool
  then Js.toUpperCase (Js.orDefault searchedIdentifier "")
  else if isPrivateAviation flight
  then flightNumber
  else "Flight " ++ flightNumber.

(** Every entry of the source's table is the empty string. *)
Definition getStatusEmoji (status : string) : string := "".

(** [statusMap[status] || status] *)
Definition formatStatus (status : string) : string :=
  let statusMap :=
    [("scheduled", "Scheduled"); ("active", "In Flight"); ("landed", "Landed");
     ("cancelled", "Cancelled"); ("incident", "Incident");
     ("diverted", "Diverted"); ("result unknown", "Not Currently Flying");
     ("unknown", "Status Unknown")] in
  Js.orDefault (lookup status statusMap) status.

Definition updateTriggers : list string :=
  ["scheduled"; "active"; "landed"; "cancelled"; "incident"; "diverted"].

Definition shouldSendUpdate (currentStatus previousStatus : string) : bool :=
  negb (currentStatus =? previousStatus)%string
  && existsb (String.eqb currentStatus) updateTriggers.

Definition getUpdateMessage (flight : NormalizedFlight.t) (updateType : string)
  : string :=
  let flightNumber := flightNumberOf flight in
  let status :=
    getStatusEmoji (NormalizedFlight.flight_status flight) ++ " "
    ++ formatStatus (NormalizedFlight.flight_status flight) in
  let displayName :=
    if (isPrivateAviation flight && Js.truthy (registrationOf flight))%bool
    then Js.orDefault (registrationOf flight) ""
    else if isPrivateAviation flight
    then flightNumber
    else "Flight " ++ flightNumber in
  if (updateType =? "active")%string
  then "*" ++ displayName ++ "* is now airborne!"
  else if (updateType =? "landed")%string
  then "*" ++ displayName ++ "* has landed safely."
  else if (updateType =? "cancelled")%string
  then "*" ++ displayName ++ "* has been cancelled."
  else if (updateType =? "diverted")%string
  then "*" ++ displayName ++ "* has been diverted."
  else if (updateType =? "incident")%string
  then "*" ++ displayName ++ "* has reported an incident."
  else "*" ++ displayName ++ "* status update: " ++ status.

Definition getApiUsageStatus : M ApiUsageStatus.t := ApiUsageTracker.getUsageStatus.

Definition shouldLimitTracking : M bool := ApiUsageTracker.shouldLimitTracking.

Definition canMakeRequest : M bool := ApiUsageTracker.canMakeRequest.

End FlightService.

(** ** [FlightMonitor] *)

Module FlightMonitor.

Import ApiUsageTracker.
Local Open Scope tracker_scope.

(** [Map<string, TrackedFlight>] *)
Definition Registry : Type := list (string * TrackedFlight.t).

Fixpoint get (key : string) (m : Registry) : option TrackedFlight.t :=
  match m with
  | [] => None
  | (k, v) :: rest => if (key =? k)%string then Some v else get key rest
  end.

Definition has (key : string) (m : Registry) : bool :=
  match get key m with
  | Some _ => true
  | None => false
  end.

(** [Map.prototype.set]: a present key keeps its place, a new one goes last. *)
Fixpoint set (key : string) (v : TrackedFlight.t) (m : Registry) : Registry :=
  match m with
  | [] => [(key, v)]
  | (k, v') :: rest =>
      if (key =? k)%string then (k, v) :: rest else (k, v') :: set key v rest
  end.

Fixpoint delete (key : string) (m : Registry) : Registry :=
  match m with
  | [] => []
  | (k, v) :: rest =>
      if (key =? k)%string then rest else (k, v) :: delete key rest
  end.

(** The tracked object of [key] is mutated in place: the map shows the new
    fields where it holds the object, and nothing changes where it does not. *)
Fixpoint mutate (key : string) (v : TrackedFlight.t) (m : Registry) : Registry :=
  match m with
  | [] => []
  | (k, v') :: rest =>
      if (key =? k)%string then (k, v) :: rest else (k, v') :: mutate key v rest
  end.

Definition keyOf (identifier channelId : string) : string :=
  identifier ++ "_" ++ channelId.

Definition startTracking (trackingInfo : TrackingInfo.t) (now : Clock)
           (trackedFlights : Registry) : Registry :=
  let key := keyOf (TrackingInfo.identifier trackingInfo)
                   (TrackingInfo.channelId trackingInfo) in
  let flight := TrackingInfo.flight trackingInfo in
  set key
      (TrackedFlight.mk flight
         (TrackingInfo.channelId trackingInfo)
         (TrackingInfo.userId trackingInfo)
         (TrackingInfo.identifier trackingInfo)
         (NormalizedFlight.flight_status flight)
         (getTime now)
         0
         (NormalizedFlight.flight_status flight =? "landed")%string)
      trackedFlights.

Definition getTrackedFlightsCount (trackedFlights : Registry) : Z :=
  Z.of_nat (List.length trackedFlights).

Definition stopTracking (identifier channelId : string) (trackedFlights : Registry)
  : bool * Registry :=
  let key := keyOf identifier channelId in
  (has key trackedFlights, delete key trackedFlights).

Definition isTracking (identifier channelId : string) (trackedFlights : Registry)
  : bool :=
  has (keyOf identifier channelId) trackedFlights.

(** A call of [chat.postMessage]: the channel, the text, and whether the
    usage warning block was appended.  Its failure is caught by
    [sendFlightUpdate] and changes nothing. *)
Record Post : Type := mkPost {
  channel : string;
  text : string;
  usageWarning : bool
}.

Definition sendFlightUpdate (channelId : string) (flight : NormalizedFlight.t)
           (updateType : string) : M (list Post) :=
  let message := FlightService.getUpdateMessage flight updateType in
  apiUsage <- FlightService.getApiUsageStatus ;;
  let shouldWarn :=
    match ApiUsageStatus.status apiUsage with
    | warning | critical => true
    | healthy => false
    end in
  ret [mkPost channelId message shouldWarn].

(** [checkSingleFlight] once [getFlightData] has settled. *)
Definition resume (fetched : Settled (option NormalizedFlight.t))
           (tracking : TrackedFlight.t) : M (TrackedFlight.t * list Post) :=
  match fetched with
  | Rejected _ => ret (tracking, [])
  | Resolved None => ret (tracking, [])
  | Resolved (Some updatedFlight) =>
      let currentStatus := NormalizedFlight.flight_status updatedFlight in
      let previousStatus := TrackedFlight.lastStatus tracking in
      let send := FlightService.shouldSendUpdate currentStatus previousStatus in
      posts <- (if send
                then sendFlightUpdate (TrackedFlight.channelId tracking)
                                      updatedFlight currentStatus
                else ret []) ;;
      now <- read (fun now _ => getTime now) ;;
      ret (TrackedFlight.mk
             updatedFlight
             (TrackedFlight.channelId tracking)
             (TrackedFlight.userId tracking)
             (TrackedFlight.identifier tracking)
             (if send then currentStatus else previousStatus)
             now
             (if send then TrackedFlight.updateCount tracking + 1
              else TrackedFlight.updateCount tracking)
             (if (send && (currentStatus =? "landed")%string)%bool then true
              else TrackedFlight.hasLanded tracking),
           posts)
  end.

(** One call of [checkSingleFlight] on its own: [now] is the clock at the
    call, [later] the clock when [getFlightData] has settled. *)
Definition checkSingleFlight (net : Network) (tracking : TrackedFlight.t)
           (now later : Clock) (s : ApiUsageTracker.t)
  : (TrackedFlight.t * list Post) * ApiUsageTracker.t :=
  let (fetched, s1) :=
    FlightService.getFlightData net (TrackedFlight.identifier tracking) now later s in
  resume fetched tracking later s1.

(** The [for ... of this.trackedFlights.entries()] loop: the entries that
    stay in the map, and [flightsToCheck]. *)
Fixpoint scan (currentTime : Clock) (entries : Registry)
  : Registry * list (string * TrackedFlight.t) :=
  match entries with
  | [] => ([], [])
  | (key, tracking) :: rest =>
      let (kept, flightsToCheck) := scan currentTime rest in
      if (TrackedFlight.hasLanded tracking
          && (10 <? TrackedFlight.updateCount tracking))%bool
      then (kept, flightsToCheck)
      else
        let timeSinceLastUpdate :=
          getTime currentTime - TrackedFlight.lastUpdated tracking in
        let shouldCheck := 5 * 60 * 1000 <? timeSinceLastUpdate in
        ((key, tracking) :: kept,
         if shouldCheck then (key, tracking) :: flightsToCheck
         else flightsToCheck)
  end.

(** [sort((a, b) => b.tracking.lastUpdated - a.tracking.lastUpdated)]:
    descending, and stable as [Array.prototype.sort] is. *)
Fixpoint insertDesc (a : string * TrackedFlight.t)
         (l : list (string * TrackedFlight.t)) : list (string * TrackedFlight.t) :=
  match l with
  | [] => [a]
  | b :: rest =>
      if TrackedFlight.lastUpdated (snd b) <=? TrackedFlight.lastUpdated (snd a)
      then a :: b :: rest
      else b :: insertDesc a rest
  end.

Definition sortByLastUpdatedDesc (l : list (string * TrackedFlight.t))
  : list (string * TrackedFlight.t) :=
  fold_right insertDesc [] l.

Definition limit (shouldLimitTracking : bool)
           (flightsToCheck : list (string * TrackedFlight.t))
  : list (string * TrackedFlight.t) :=
  if (shouldLimitTracking && (2 <? Z.of_nat (List.length flightsToCheck)))%bool
  then firstn 2 (sortByLastUpdatedDesc flightsToCheck)
  else flightsToCheck.

(** What the world gives one poll cycle, per map key: the provider that
    answers the check of that entry, and the clock when it answers. *)
Record World : Type := mkWorld {
  provider : string -> Network;
  answered : string -> Clock
}.

(** A check between its call and the provider's answer. *)
Record Pending : Type := mkPending {
  key : string;
  tracking : TrackedFlight.t;
  checked : FlightError + SearchType * string
}.

(** [promises.push(this.checkSingleFlight(key, tracking))] for each entry
    of [flightsToCheck]: every call runs [getFlightData] to its first
    [await] before the next call is made. *)
Fixpoint launch (flightsToCheck : list (string * TrackedFlight.t))
  : M (list Pending) :=
  match flightsToCheck with
  | [] => ret []
  | (key, tracking) :: rest =>
      checked <- FlightService.prepare (TrackedFlight.identifier tracking) ;;
      pending <- launch rest ;;
      ret (mkPending key tracking checked :: pending)
  end.

Record Outcome : Type := mkOutcome {
  trackedFlights : Registry;
  usageTracker : ApiUsageTracker.t;
  fetched : list string;
  posted : list Post
}.

(** [await Promise.allSettled(promises)]: the checks resume as the provider
    answers, here in the order of the calls; a check writes to its own
    tracked object and to the usage tracker only. *)
Fixpoint settle (w : World) (pending : list Pending) (o : Outcome) : Outcome :=
  match pending with
  | [] => o
  | p :: rest =>
      let later := answered w (key p) in
      let (result, s1) :=
        match checked p with
        | inl e => (Rejected (FlightService.rethrow e), usageTracker o)
        | inr (k, clean) =>
            FlightService.complete (provider w (key p)) k clean later (usageTracker o)
        end in
      let '(tracking', posts, s2) := resume result (tracking p) later s1 in
      settle w rest
             (mkOutcome (mutate (key p) tracking' (trackedFlights o)) s2
                        (fetched o) (posted o ++ posts)%list)
  end.

Definition checkFlightUpdates (w : World) (currentTime : Clock)
           (trackedFlights : Registry) (s : ApiUsageTracker.t) : Outcome :=
  let (allowed, s1) := FlightService.canMakeRequest currentTime s in
  if negb allowed
  then mkOutcome trackedFlights s1 [] []
  else
    let (shouldLimitTracking, s2) := FlightService.shouldLimitTracking currentTime s1 in
    let (kept, flightsToCheck) := scan currentTime trackedFlights in
    let flightsToCheck := limit shouldLimitTracking flightsToCheck in
    let (pending, s3) := launch flightsToCheck currentTime s2 in
    settle w pending (mkOutcome kept s3 (map fst flightsToCheck) []).

End FlightMonitor.

(** * Vocabulary of the properties *)

(** ** Quota tracker *)

(** The state [resetUsage] leaves at clock reading [now]. *)
Definition fresh (now : Clock) (s : ApiUsageTracker.t) : ApiUsageTracker.t :=
  ApiUsageTracker.mk (ApiUsageTracker.monthlyLimit s)
    (UsageData.mk (getMonth now) (getFullYear now) 0 [] (toISOString now)).

(** The stored month or year is not the clock's. *)
Definition stale (now : Clock) (s : ApiUsageTracker.t) : Prop :=
  UsageData.month (ApiUsageTracker.usage s) <> getMonth now
  \/ UsageData.year (ApiUsageTracker.usage s) <> getFullYear now.

(** The state every accessor computes its result from. *)
Definition current (now : Clock) (s : ApiUsageTracker.t) : ApiUsageTracker.t :=
  snd (ApiUsageTracker.rollover now s).

(** The calls counted so far this month, once the rollover check has run. *)
Definition used (now : Clock) (s : ApiUsageTracker.t) : Z :=
  UsageData.count (ApiUsageTracker.usage (current now s)).

(** ** Sample data *)

Definition october : Clock := mkClock 1791892800000 9 2026 "2026-10-13T12:00:00.000Z".
Definition november : Clock := mkClock 1793620800000 10 2026 "2026-11-02T12:00:00.000Z".
Definition novemberLater : Clock := mkClock 1793620801500 10 2026 "2026-11-02T12:00:01.500Z".

Definition trackerWith (count : Z) (month : Z) : ApiUsageTracker.t :=
  ApiUsageTracker.mk 1000 (UsageData.mk month 2026 count [] "2026-10-01T00:00:00.000Z").

(** Written last month, over its limit of 1000. *)
Definition lastMonthOverLimit : ApiUsageTracker.t := trackerWith 1001 9.
(** This month's states: little used, at 96%, and used up. *)
Definition healthyTracker : ApiUsageTracker.t := trackerWith 10 10.
Definition criticalTracker : ApiUsageTracker.t := trackerWith 960 10.
Definition exhaustedTracker : ApiUsageTracker.t := trackerWith 1000 10.

(** A provider that knows no flight, and one that is down. *)
Definition noFlights : Network := fun _ => Fulfilled [].

(** A provider that answers every request without a flights array. *)
Definition noFlightsArray : Network := fun _ => Malformed.
Definition unreachable : Network := fun _ => Failed None.

(** A provider record with an identity, a status, an operator and a
    registration, and nothing else. *)
Definition providerRecord (ident status operator registration : option string)
  : FlightAwareFlight.t :=
  FlightAwareFlight.mk ident None ident None status operator None None
    None None None None None None None None None None None None
    registration None None None None None None.

(** United 400, in the air. *)
Definition ua400Active : FlightAwareFlight.t :=
  providerRecord (Some "UA400") (Some "Active") (Some "United Airlines") None.

(** A record whose operator is the empty string. *)
Definition blankOperator : FlightAwareFlight.t :=
  providerRecord (Some "N300DG") (Some "Active") (Some "") (Some "N300DG").

Definition ua400Everywhere : Network := fun _ => Fulfilled [ua400Active].

(** A tracked object as [startTracking] and later checks leave it. *)
Definition tracked (identifier channelId status : string)
           (lastUpdated updateCount : Z) (hasLanded : bool) : TrackedFlight.t :=
  TrackedFlight.mk
    (FlightService.normalizeFlightData
       (providerRecord (Some identifier) (Some status) (Some "United Airlines") None)
       "flight_number")
    channelId "U1" identifier (Js.toLowerCase status) lastUpdated updateCount hasLanded.

(** Tracked since mid October, scheduled then. *)
Definition ua400Scheduled : TrackedFlight.t :=
  tracked "UA400" "C1" "Scheduled" (getTime october) 0 false.

(** The label [normalizeFlightData] gives an airport: its name, else its
    IATA code, else 'Unknown'. *)
Definition airportLabel (a : option FlightAwareAirport.t) : string :=
  match a with
  | Some (FlightAwareAirport.mk (Some name) _ _) => name
  | Some (FlightAwareAirport.mk None (Some code_iata) _) => code_iata
  | _ => "Unknown"
  end.

(** ** Poll cycle *)

(** Landed and notified more than ten times: the loop drops the entry. *)
Definition completed (tracking : TrackedFlight.t) : bool :=
  TrackedFlight.hasLanded tracking && (10 <? TrackedFlight.updateCount tracking).

(** Not dropped, and last updated more than five minutes before
    [currentTime]. *)
Definition isDue (currentTime : Clock) (tracking : TrackedFlight.t) : bool :=
  negb (completed tracking)
  && (300000 <? getTime currentTime - TrackedFlight.lastUpdated tracking).

(** The candidates of a cycle, in map order. *)
Definition dueForCheck (currentTime : Clock) (trackedFlights : FlightMonitor.Registry)
  : list (string * TrackedFlight.t) :=
  filter (fun entry => isDue currentTime (snd entry)) trackedFlights.

(** [a] was updated no earlier than [b]. *)
Definition noEarlier (a b : string * TrackedFlight.t) : Prop :=
  TrackedFlight.lastUpdated (snd b) <= TrackedFlight.lastUpdated (snd a).

Definition minutesBefore (minutes : Z) (c : Clock) : Z := getTime c - minutes * 60000.

(** Six tracked flights at noon on 2 November: four are due, one was
    checked a minute ago, one has landed and was notified eleven times. *)
Definition sampleRegistry : FlightMonitor.Registry :=
  [ ("UA400_C1", tracked "UA400" "C1" "Scheduled" (minutesBefore 10 november) 0 false);
    ("DL123_C1", tracked "DL123" "C1" "Active" (minutesBefore 20 november) 1 false);
    ("AA1_C2", tracked "AA1" "C2" "Scheduled" (minutesBefore 6 november) 0 false);
    ("BA9999_C1", tracked "BA9999" "C1" "Active" (minutesBefore 1 november) 1 false);
    ("N300DG_C3", tracked "N300DG" "C3" "Completed" (minutesBefore 30 november) 11 true);
    ("UA400_C2", tracked "UA400" "C2" "Scheduled" (minutesBefore 8 november) 0 false) ].

(** Landed, notified ten times. *)
Definition landedTenUpdates : FlightMonitor.Registry :=
  [ ("N300DG_C3", tracked "N300DG" "C3" "Completed" (minutesBefore 30 november) 10 true) ].

Definition sampleWorld : FlightMonitor.World :=
  FlightMonitor.mkWorld (fun _ => ua400Everywhere) (fun _ => novemberLater).

(** ** Vocabulary of the further properties *)

(** The state after one more call is counted and logged. *)
Definition charged (type : string) (flightId : option string) (now : Clock)
           (s : ApiUsageTracker.t) : ApiUsageTracker.t :=
  snd (ApiUsageTracker.recordRequest type flightId now s).

(** [n] calls of [recordRequest] in a row, at one clock reading. *)
Definition recordMany (n : nat) (type : string) (flightId : option string)
           (now : Clock) (s : ApiUsageTracker.t) : ApiUsageTracker.t :=
  Nat.iter n (charged type flightId now) s.

(** The log of a tracker. *)
Definition logOf (s : ApiUsageTracker.t) : list ApiRequest.t :=
  UsageData.requests (ApiUsageTracker.usage s).

(** The strings of a pattern's language. *)
Inductive matches : Regex.re -> string -> Prop :=
| matches_eps : matches Regex.Eps ""
| matches_class (p : ascii -> bool) (c : ascii) :
    p c = true -> matches (Regex.Class p) (String c "")
| matches_cat (r1 r2 : Regex.re) (s1 s2 : string) :
    matches r1 s1 -> matches r2 s2 -> matches (Regex.Cat r1 r2) (s1 ++ s2)
| matches_alt_l (r1 r2 : Regex.re) (s : string) :
    matches r1 s -> matches (Regex.Alt r1 r2) s
| matches_alt_r (r1 r2 : Regex.re) (s : string) :
    matches r2 s -> matches (Regex.Alt r1 r2) s.

(** Every character of [s] satisfies [p]. *)
Fixpoint allOf (p : ascii -> bool) (s : string) : Prop :=
  match s with
  | EmptyString => True
  | String c s' => p c = true /\ allOf p s'
  end.

Definition isAlnum (c : ascii) : bool := (Js.isLetter c || Js.isDigit c)%bool.



(** Between [lo] and [hi] characters, all satisfying [p]. *)
Definition run (p : ascii -> bool) (lo hi : nat) (s : string) : Prop :=
  (lo <= String.length s <= hi)%nat /\ allOf p s.

(** A carrier code of 2 or 3 letters, a number of 1 to 4 digits, and at
    most one letter after it. *)
Definition flightNumberShape (s : string) : Prop :=
  exists carrier number suffix,
    s = carrier ++ number ++ suffix
    /\ run Js.isLetter 2 3 carrier
    /\ run Js.isDigit 1 4 number
    /\ run Js.isLetter 0 1 suffix.

(** A letter, possibly a hyphen, and 1 to 5 letters or digits. *)
Definition internationalTailShape (s : string) : Prop :=
  exists prefix hyphen rest,
    s = String prefix (hyphen ++ rest)
    /\ Js.isLetter prefix = true
    /\ (hyphen = "" \/ hyphen = "-")
    /\ run isAlnum 1 5 rest.

(** An N in either case, 1 to 5 digits, and at most 2 letters. *)
Definition usTailShape (s : string) : Prop :=
  exists n digits letters,
    s = String n (digits ++ letters)
    /\ (n = "N"%char \/ n = "n"%char)
    /\ run Js.isDigit 1 5 digits
    /\ run Js.isLetter 0 2 letters.

(** The provider's last word on a lookup: the flight endpoint's answer, or
    for a tail number refused there with status 400, the aircraft
    endpoint's. *)
Definition answer (net : Network) (k : SearchType) (clean : string) : HttpResponse :=
  match k, net ("/flights/" ++ clean) with
  | tail_number, Failed (Some 400) => net ("/aircraft/" ++ clean ++ "/flights")
  | _, response => response
  end.

(** The tag [recordRequest] is given for a lookup. *)
Definition lookupTag (k : SearchType) : string :=
  match k with
  | flight_number => "flight_lookup"
  | tail_number => "tail_lookup"
  end.

(** The search type [getFlightData] settles on for a cleaned identifier. *)
Definition searchTypeOf (clean : string) : SearchType :=
  if FlightService.isFlightNumber clean then flight_number else tail_number.

(** Two clock readings in one calendar month. *)
Definition sameMonth (a b : Clock) : Prop :=
  getMonth a = getMonth b /\ getFullYear a = getFullYear b.

(** No underscore in [s]. *)
Definition underscoreFree (s : string) : Prop :=
  allOf (fun c => negb (Ascii.eqb c "_")) s.

(** The tracked object [startTracking] stores. *)
Definition newlyTracked (info : TrackingInfo.t) (now : Clock) : TrackedFlight.t :=
  TrackedFlight.mk (TrackingInfo.flight info) (TrackingInfo.channelId info)
    (TrackingInfo.userId info) (TrackingInfo.identifier info)
    (NormalizedFlight.flight_status (TrackingInfo.flight info))
    (getTime now) 0
    (NormalizedFlight.flight_status (TrackingInfo.flight info) =? "landed")%string.

(** How one poll cycle may change a tracked object: the identity fields
    stay, the update count grows by one at most, and [hasLanded] is never
    cleared. *)
Definition evolves (before after : TrackedFlight.t) : Prop :=
  TrackedFlight.identifier after = TrackedFlight.identifier before
  /\ TrackedFlight.channelId after = TrackedFlight.channelId before
  /\ TrackedFlight.userId after = TrackedFlight.userId before
  /\ TrackedFlight.updateCount before <= TrackedFlight.updateCount after
     <= TrackedFlight.updateCount before + 1
  /\ (TrackedFlight.hasLanded before = true -> TrackedFlight.hasLanded after = true).

(** The provider has no record for any request of the cycle. *)
Definition noRecords (w : FlightMonitor.World) : Prop :=
  forall key path,
    match FlightMonitor.provider w key path with
    | Fulfilled (_ :: _) => False
    | Fulfilled [] | Malformed | Failed _ => True
    end.

(** How [getFlightData] settles for a pending check, from the quota state
    [s] at that moment. *)
Definition fetchOf (w : FlightMonitor.World) (p : FlightMonitor.Pending)
           (s : ApiUsageTracker.t)
  : Settled (option NormalizedFlight.t) * ApiUsageTracker.t :=
  match FlightMonitor.checked p with
  | inl e => (Rejected (FlightService.rethrow e), s)
  | inr (k, clean) =>
      FlightService.complete (FlightMonitor.provider w (FlightMonitor.key p)) k clean
                             (FlightMonitor.answered w (FlightMonitor.key p)) s
  end.

(** The key and the tracked object of a pending check. *)
Definition entryOf (p : FlightMonitor.Pending) : string * TrackedFlight.t :=
  (FlightMonitor.key p, FlightMonitor.tracking p).

(** Every answer of the cycle comes in the month the cycle started in. *)
Definition withinMonth (currentTime : Clock) (w : FlightMonitor.World) : Prop :=
  forall key, sameMonth currentTime (FlightMonitor.answered w key).

(** The tracked objects the pending checks hold are those of the registry,
    one check per key. *)
Definition inStep (pending : list FlightMonitor.Pending) (m : FlightMonitor.Registry)
  : Prop :=
  NoDup (map FlightMonitor.key pending)
  /\ forall p, In p pending ->
               FlightMonitor.get (FlightMonitor.key p) m = Some (FlightMonitor.tracking p).

(** Case analysis on the eight bits of a character. *)
Ltac each_char c := destruct c as [[] [] [] [] [] [] [] []].

(** What a post says and where, without the usage warning flag, which
    depends on the quota state at the moment of posting. *)
Definition said (post : FlightMonitor.Post) : string * string :=
  (FlightMonitor.channel post, FlightMonitor.text post).

(** The pending check [launch] makes of a registry entry in a cycle started
    at [currentTime] with quota state [s]. *)
Definition pendingOf (currentTime : Clock) (s : ApiUsageTracker.t)
           (entry : string * TrackedFlight.t) : FlightMonitor.Pending :=
  FlightMonitor.mkPending (fst entry) (snd entry)
    (fst (FlightService.prepare (TrackedFlight.identifier (snd entry)) currentTime s)).

(** What [checkSingleFlight] makes of the entry under [key] in a cycle: the
    tracked object it leaves and the messages it posts. *)
Definition checkOf (w : FlightMonitor.World) (currentTime : Clock)
           (s : ApiUsageTracker.t) (key : string) (tracking : TrackedFlight.t)
  : TrackedFlight.t * list FlightMonitor.Post :=
  fst (FlightMonitor.checkSingleFlight (FlightMonitor.provider w key) tracking
         currentTime (FlightMonitor.answered w key) s).


(** The property names every object inherits from [Object.prototype]:
    indexing an object literal with one of them gives the inherited member
    and not [undefined]. *)
Definition objectPrototypeNames : list string :=
  [ "constructor"; "hasOwnProperty"; "isPrototypeOf"; "propertyIsEnumerable";
    "toLocaleString"; "toString"; "valueOf"; "__proto__";
    "__defineGetter__"; "__defineSetter__"; "__lookupGetter__"; "__lookupSetter__" ].

(** [status] is missing, or a word that names no inherited member. *)
Definition plainKey (status : option string) : bool :=
  match status with
  | None => true
  | Some word => negb (existsb (String.eqb word) objectPrototypeNames)
  end.

(** * Properties *)

(** ** Status transitions *)

Section Transitions.

Import FlightService.

Lemma includes_updateTriggers (status : string) :
  existsb (String.eqb status) updateTriggers = true <->
  status = "scheduled" \/ status = "active" \/ status = "landed"
  \/ status = "cancelled" \/ status = "incident" \/ status = "diverted".
Proof.
  unfold updateTriggers. rewrite existsb_exists. split.
  - intros [x [Hin Heq]]. apply String.eqb_eq in Heq. subst x.
    simpl in Hin. intuition.
  - intros H. exists status. rewrite String.eqb_refl. simpl. intuition.
Qed.

(** C1. [shouldSendUpdate(currentStatus, previousStatus)] is true exactly
    when the two statuses differ and the current one is one of scheduled,
    active, landed, cancelled, incident, diverted; a change to 'unknown'
    gives false, and so does an unchanged status. *)
Theorem shouldSendUpdate_iff_changed_to_trigger (currentStatus previousStatus : string) :
  (shouldSendUpdate currentStatus previousStatus = true <->
   currentStatus <> previousStatus
   /\ (currentStatus = "scheduled" \/ currentStatus = "active"
       \/ currentStatus = "landed" \/ currentStatus = "cancelled"
       \/ currentStatus = "incident" \/ currentStatus = "diverted"))
  /\ shouldSendUpdate "unknown" previousStatus = false
  /\ shouldSendUpdate currentStatus currentStatus = false.
Proof.
  unfold shouldSendUpdate. repeat split.
  - apply andb_true_iff in H. destruct H as [H _].
    apply negb_true_iff, String.eqb_neq in H. exact H.
  - apply andb_true_iff in H. destruct H as [_ H].
    apply includes_updateTriggers. exact H.
  - intros [Hne Htrig]. apply andb_true_iff. split.
    + apply negb_true_iff, String.eqb_neq. exact Hne.
    + apply includes_updateTriggers. exact Htrig.
  - apply andb_false_iff. right. reflexivity.
  - rewrite String.eqb_refl. reflexivity.
Qed.

End Transitions.

(** ** Quota tracker *)

Section Quota.

Import ApiUsageTracker.

Lemma isNewMonth_stale now s : fst (isNewMonth now s) = true <-> stale now s.
Proof.
  unfold isNewMonth, read, stale. simpl.
  rewrite orb_true_iff, !negb_true_iff, !Z.eqb_neq. tauto.
Qed.

Lemma isNewMonth_fresh now s : isNewMonth now (fresh now s) = (false, fresh now s).
Proof.
  unfold isNewMonth, read, fresh. simpl. now rewrite !Z.eqb_refl.
Qed.

Lemma rollover_stale now s : stale now s -> rollover now s = (tt, fresh now s).
Proof.
  intros H. apply isNewMonth_stale in H.
  unfold rollover, bind. unfold isNewMonth, read in *. simpl in H.
  rewrite H. reflexivity.
Qed.

Lemma rollover_current now s : ~ stale now s -> rollover now s = (tt, s).
Proof.
  intros H. unfold rollover, bind.
  destruct (isNewMonth now s) as [b s'] eqn:E.
  assert (b = false /\ s' = s) as [-> ->].
  { unfold isNewMonth, read in E. inversion E; subst. split; [|reflexivity].
    apply not_true_is_false. intros Hb. apply H, isNewMonth_stale.
    unfold isNewMonth, read. exact Hb. }
  reflexivity.
Qed.

Lemma rollover_current_eq now s : rollover now s = (tt, current now s).
Proof. unfold current. destruct (rollover now s) as [[] s']. reflexivity. Qed.

Lemma not_stale_current now s : ~ stale now (current now s).
Proof.
  unfold current, rollover, bind, isNewMonth, read.
  destruct (negb (UsageData.month (usage s) =? getMonth now)
            || negb (UsageData.year (usage s) =? getFullYear now)) eqn:E; simpl.
  - unfold stale. simpl. tauto.
  - apply orb_false_iff in E. destruct E as [E1 E2].
    apply negb_false_iff, Z.eqb_eq in E1. apply negb_false_iff, Z.eqb_eq in E2.
    unfold stale. tauto.
Qed.

Lemma rollover_idempotent now s : rollover now (current now s) = (tt, current now s).
Proof. apply rollover_current, not_stale_current. Qed.

Lemma monthlyLimit_current now s : monthlyLimit (current now s) = monthlyLimit s.
Proof.
  unfold current, rollover, bind, isNewMonth, read.
  destruct (_ || _); reflexivity.
Qed.

Lemma canMakeRequest_eq now s :
  canMakeRequest now s
  = (UsageData.count (usage (current now s)) <? monthlyLimit s, current now s).
Proof.
  unfold canMakeRequest, bind. rewrite rollover_current_eq. unfold read.
  now rewrite monthlyLimit_current.
Qed.

Lemma getRemainingRequests_eq now s :
  getRemainingRequests now s
  = (Z.max 0 (monthlyLimit s - UsageData.count (usage (current now s))),
     current now s).
Proof.
  unfold getRemainingRequests, bind. rewrite rollover_current_eq. unfold read.
  now rewrite monthlyLimit_current.
Qed.

Lemma getUsagePercentage_eq now s :
  getUsagePercentage now s
  = ((inject_Z (UsageData.count (usage (current now s)))
      / inject_Z (monthlyLimit s) * 100)%Q, current now s).
Proof.
  unfold getUsagePercentage, bind. rewrite rollover_current_eq. unfold read.
  now rewrite monthlyLimit_current.
Qed.

Lemma current_idempotent now s : current now (current now s) = current now s.
Proof. unfold current at 1. now rewrite rollover_idempotent. Qed.

Lemma snd_getUsageStatus now s : snd (getUsageStatus now s) = current now s.
Proof.
  unfold getUsageStatus, bind. rewrite getRemainingRequests_eq.
  rewrite getUsagePercentage_eq, current_idempotent. reflexivity.
Qed.

Lemma shouldLimitTracking_eq now s :
  shouldLimitTracking now s
  = (Qle_bool (criticalThreshold * 100)
       (inject_Z (UsageData.count (usage (current now s)))
        / inject_Z (monthlyLimit s) * 100), current now s).
Proof.
  unfold shouldLimitTracking, bind. rewrite getUsagePercentage_eq. reflexivity.
Qed.

(** C5. Each of [canMakeRequest], [getRemainingRequests],
    [getUsagePercentage] and [recordRequest] starts with the month rollover
    check: when the stored month or year is not the clock's, the state is
    reset to a zero count and an empty log, and the result is computed from
    that state (for the percentage, zero under a positive limit); so with a
    positive limit (count 1001, limit 1000, last month) [canMakeRequest]
    answers true. *)
Theorem accessors_roll_over_first (now : Clock) (s : ApiUsageTracker.t)
        (type : string) (flightId : option string) :
  stale now s ->
  canMakeRequest now s = (0 <? monthlyLimit s, fresh now s)
  /\ getRemainingRequests now s = (Z.max 0 (monthlyLimit s - 0), fresh now s)
  /\ (0 < monthlyLimit s -> (fst (getUsagePercentage now s) == 0)%Q)
  /\ snd (getUsagePercentage now s) = fresh now s
  /\ recordRequest type flightId now s
     = (tt, ApiUsageTracker.mk (monthlyLimit s)
              (UsageData.mk (getMonth now) (getFullYear now) 1
                 [ApiRequest.mk (toISOString now) type flightId]
                 (toISOString now)))
  /\ (0 < monthlyLimit s -> fst (canMakeRequest now s) = true).
Proof.
  intros Hstale.
  assert (Hcur : current now s = fresh now s).
  { unfold current. now rewrite rollover_stale. }
  rewrite canMakeRequest_eq, getRemainingRequests_eq, getUsagePercentage_eq, Hcur.
  cbn [fst snd fresh usage UsageData.count].
  split; [reflexivity|]. split; [reflexivity|]. split; [|split; [reflexivity|split]].
  - intros _. unfold Qeq, Qmult, Qdiv, Qinv, inject_Z. simpl. reflexivity.
  - unfold recordRequest, bind. rewrite rollover_stale by assumption.
    unfold modify. cbn [usage fresh UsageData.requests UsageData.month
      UsageData.year UsageData.count UsageData.lastReset monthlyLimit app].
    cbn [List.length Z.of_nat]. change (100 <? Z.pos 1) with false. cbv iota.
    rewrite getUsagePercentage_eq. cbn [fst snd].
    unfold ret. f_equal.
    unfold current. rewrite rollover_current; [reflexivity|].
    unfold stale. simpl. tauto.
  - intros Hpos. apply Z.ltb_lt. exact Hpos.
Qed.

Lemma accessors_roll_over_first_witness :
  stale november lastMonthOverLimit
  /\ fst (canMakeRequest november lastMonthOverLimit) = true.
Proof.
  assert (H : stale november lastMonthOverLimit).
  { left. simpl. discriminate. }
  split; [exact H|].
  exact (proj2 (proj2 (proj2 (proj2 (proj2
           (accessors_roll_over_first november lastMonthOverLimit "" None H)))))
           eq_refl).
Defined.

End Quota.

(** ** Identifier checks of [getFlightData] *)

Section Identifiers.

Import FlightService.

Lemma short_cases (s : string) :
  Js.length s < 2 -> s = "" \/ exists c, s = String c "".
Proof.
  unfold Js.length. destruct s as [|c [|c' s']]; simpl; intros H.
  - now left.
  - right. now exists c.
  - exfalso. lia.
Qed.

Lemma isFlightNumber_short (s : string) :
  Js.length s < 2 -> isFlightNumber s = false.
Proof.
  intros H. destruct (short_cases s H) as [-> | [c ->]]; [reflexivity|].
  unfold isFlightNumber, flightNumberPattern. cbn.
  destruct (Js.isLetter c); reflexivity.
Qed.

Lemma isTailNumber_short (s : string) :
  Js.length s < 2 -> isTailNumber s = false.
Proof.
  intros H. destruct (short_cases s H) as [-> | [c ->]]; [reflexivity|].
  unfold isTailNumber, internationalTailPattern, usTailPattern. cbn.
  destruct (Js.isLetter c); destruct (Ascii.eqb (Js.upperChar c) _); reflexivity.
Qed.

(** The checks before the provider is asked, for an identifier of two
    characters or more: the quota first, the format second. *)
Lemma prepare_long (identifier : string) (now : Clock) (s : ApiUsageTracker.t) :
  2 <= Js.length identifier ->
  prepare identifier now s
  = (if used now s <? ApiUsageTracker.monthlyLimit s
     then let clean := cleanIdentifier identifier in
          if isFlightNumber clean then inr (flight_number, clean)
          else if isTailNumber clean then inr (tail_number, clean)
          else inl InvalidFormat
     else inl (QuotaExceeded (used now s) (ApiUsageTracker.monthlyLimit s)),
     current now s).
Proof.
  intros Hlen. unfold prepare.
  assert (Hguard : ((identifier =? "")%string || (Js.length identifier <? 2))%bool = false).
  { apply orb_false_iff. split.
    - apply String.eqb_neq. intros ->. unfold Js.length in Hlen. simpl in Hlen. lia.
    - apply Z.ltb_ge. exact Hlen. }
  rewrite Hguard. unfold ApiUsageTracker.bind.
  rewrite canMakeRequest_eq. fold (used now s).
  destruct (used now s <? ApiUsageTracker.monthlyLimit s) eqn:Hq; cbn [negb].
  - destruct (Js.length (cleanIdentifier identifier) <? 2) eqn:Hshort.
    + apply Z.ltb_lt in Hshort.
      rewrite isFlightNumber_short, isTailNumber_short by assumption. reflexivity.
    + destruct (isFlightNumber (cleanIdentifier identifier));
        destruct (isTailNumber (cleanIdentifier identifier)); reflexivity.
  - unfold ApiUsageTracker.getUsageStatus, ApiUsageTracker.bind.
    rewrite getRemainingRequests_eq, getUsagePercentage_eq.
    rewrite !current_idempotent, monthlyLimit_current.
    unfold ApiUsageTracker.read, ApiUsageTracker.ret, used.
    cbn [ApiUsageStatus.used ApiUsageStatus.limit].
    now rewrite monthlyLimit_current.
Qed.

Lemma fst_canMakeRequest now s :
  fst (ApiUsageTracker.canMakeRequest now s)
  = (used now s <? ApiUsageTracker.monthlyLimit s).
Proof. now rewrite canMakeRequest_eq. Qed.

Lemma getFlightData_rejected_early net identifier now later s e :
  fst (prepare identifier now s) = inl e ->
  getFlightData net identifier now later s
  = (Rejected (rethrow e), snd (prepare identifier now s)).
Proof.
  unfold getFlightData. destruct (prepare identifier now s) as [c s1].
  simpl. intros ->. reflexivity.
Qed.

Lemma getFlightByTailNumber_answer (net : Network) (clean : string) :
  getFlightByTailNumber net clean
  = match answer net tail_number clean with
    | Fulfilled flights =>
        ApiUsageTracker.bind
          (ApiUsageTracker.recordRequest "tail_lookup" (Some clean))
          (fun _ => ApiUsageTracker.ret (Resolved (firstFlight flights tail_number)))
    | Malformed =>
        ApiUsageTracker.bind
          (ApiUsageTracker.recordRequest "tail_lookup" (Some clean))
          (fun _ => ApiUsageTracker.ret (Rejected TypeError))
    | Failed status => ApiUsageTracker.ret (Rejected (TransportError status))
    end.
Proof. reflexivity. Qed.

(** [getFlightData] from its first [await] on, by the provider's last
    answer. *)
Lemma complete_eq (net : Network) (k : SearchType) (clean : string)
      (later : Clock) (s : ApiUsageTracker.t) :
  complete net k clean later s
  = match answer net k clean with
    | Fulfilled flights =>
        (Resolved (firstFlight flights k),
         charged (lookupTag k) (Some clean) later s)
    | Malformed =>
        (Rejected TypeError, charged (lookupTag k) (Some clean) later s)
    | Failed status => (Rejected (rethrow (TransportError status)), s)
    end.
Proof.
  unfold complete, ApiUsageTracker.bind at 1, charged. destruct k.
  - unfold getFlightByNumber.
    change (answer net flight_number clean) with (net ("/flights/" ++ clean)).
    destruct (net ("/flights/" ++ clean)) as [flights | | status];
      unfold ApiUsageTracker.bind, ApiUsageTracker.ret; try reflexivity;
      cbn [lookupTag];
      destruct (ApiUsageTracker.recordRequest _ _ later s) as [[] s']; reflexivity.
  - rewrite getFlightByTailNumber_answer.
    destruct (answer net tail_number clean) as [flights | | status];
      unfold ApiUsageTracker.bind, ApiUsageTracker.ret; try reflexivity;
      cbn [lookupTag];
      destruct (ApiUsageTracker.recordRequest _ _ later s) as [[] s']; reflexivity.
Qed.

Lemma rethrow_other (status : option Z) :
  status <> Some 401 -> status <> Some 429 ->
  rethrow (TransportError status) = TransportError status.
Proof.
  intros H1 H2. destruct status as [z|]; [|reflexivity].
  destruct (Z.eq_dec z 401) as [-> | N1]; [congruence|].
  destruct (Z.eq_dec z 429) as [-> | N2]; [congruence|].
  destruct z as [|p|p]; try reflexivity.
  unfold rethrow.
  do 10 (try (destruct p as [p|p|]; try reflexivity; try congruence)).
Qed.

Lemma rethrow_transport (status : option Z) :
  rethrow (TransportError status) = AuthenticationFailed
  \/ rethrow (TransportError status) = RateLimitExceeded
  \/ rethrow (TransportError status) = TransportError status.
Proof.
  destruct status as [z|]; [|now right; right].
  destruct (Z.eq_dec z 401) as [-> | N1]; [now left|].
  destruct (Z.eq_dec z 429) as [-> | N2]; [now right; left|].
  right; right. apply rethrow_other; congruence.
Qed.

Lemma getFlightData_short net identifier now later s :
  Js.length identifier < 2 ->
  getFlightData net identifier now later s = (Rejected IdentifierTooShort, s).
Proof.
  intros H. unfold getFlightData, prepare.
  replace (Js.length identifier <? 2) with true by (symmetry; now apply Z.ltb_lt).
  rewrite orb_true_r. reflexivity.
Qed.

Lemma getFlightData_long net identifier now later s :
  2 <= Js.length identifier ->
  getFlightData net identifier now later s
  = if used now s <? ApiUsageTracker.monthlyLimit s
    then let clean := cleanIdentifier identifier in
         if (isFlightNumber clean || isTailNumber clean)%bool
         then complete net (searchTypeOf clean) clean later (current now s)
         else (Rejected InvalidFormat, current now s)
    else (Rejected (QuotaExceeded (used now s) (ApiUsageTracker.monthlyLimit s)),
          current now s).
Proof.
  intros H. unfold getFlightData. rewrite (prepare_long identifier now s H).
  cbv zeta. unfold searchTypeOf.
  destruct (used now s <? ApiUsageTracker.monthlyLimit s); [|reflexivity].
  destruct (isFlightNumber (cleanIdentifier identifier)); [reflexivity|].
  destruct (isTailNumber (cleanIdentifier identifier)); reflexivity.
Qed.

Lemma too_short_only_for_short_identifiers net identifier now later s :
  fst (getFlightData net identifier now later s) = Rejected IdentifierTooShort
  <-> Js.length identifier < 2.
Proof.
  split.
  - intros H. destruct (Z.lt_ge_cases (Js.length identifier) 2) as [Hs | Hl];
      [exact Hs | exfalso].
    rewrite getFlightData_long in H by assumption. cbv zeta in H.
    destruct (used now s <? ApiUsageTracker.monthlyLimit s); [|discriminate H].
    destruct (isFlightNumber _ || isTailNumber _)%bool; [|discriminate H].
    rewrite complete_eq in H.
    destruct (answer net _ _) as [flights | | status]; try discriminate H.
    cbn [fst] in H.
    destruct (rethrow_transport status) as [E | [E | E]]; rewrite E in H;
      discriminate H.
  - intros H. now rewrite getFlightData_short.
Qed.

(** C6, as the code has it.  An identifier of two characters or more
    whose cleaned form has fewer than two is rejected with [InvalidFormat]
    when the quota allows a request and with [QuotaExceeded] when it does
    not; [IdentifierTooShort] is not raised for it: that error is raised
    exactly for the raw identifiers that are empty or shorter than two
    characters. *)
Theorem cleaned_too_short_is_invalid_format
        (net : Network) (identifier : string) (now later : Clock)
        (s : ApiUsageTracker.t) :
  2 <= Js.length identifier ->
  Js.length (cleanIdentifier identifier) < 2 ->
  fst (getFlightData net identifier now later s)
  = (if fst (ApiUsageTracker.canMakeRequest now s)
     then Rejected InvalidFormat
     else Rejected (QuotaExceeded (used now s) (ApiUsageTracker.monthlyLimit s)))
  /\ fst (getFlightData net identifier now later s) <> Rejected IdentifierTooShort
  /\ (forall (net' : Network) (raw : string) (now' later' : Clock)
              (s' : ApiUsageTracker.t),
        fst (getFlightData net' raw now' later' s') = Rejected IdentifierTooShort
        <-> Js.length raw < 2).
Proof.
  intros Hlen Hclean.
  assert (Hprep := prepare_long identifier now s Hlen).
  cbv zeta in Hprep.
  rewrite isFlightNumber_short, isTailNumber_short in Hprep by assumption.
  rewrite fst_canMakeRequest.
  split; [|split].
  - destruct (used now s <? ApiUsageTracker.monthlyLimit s);
      rewrite (getFlightData_rejected_early _ _ _ _ _ _ (f_equal fst Hprep));
      reflexivity.
  - destruct (used now s <? ApiUsageTracker.monthlyLimit s);
      rewrite (getFlightData_rejected_early _ _ _ _ _ _ (f_equal fst Hprep));
      discriminate.
  - intros net' raw now' later' s'. apply too_short_only_for_short_identifiers.
Qed.

Lemma cleaned_too_short_is_invalid_format_witness :
  2 <= Js.length "--"
  /\ Js.length (cleanIdentifier "--") < 2
  /\ fst (getFlightData noFlights "--" november novemberLater healthyTracker)
     = Rejected InvalidFormat.
Proof.
  assert (H1 : 2 <= Js.length "--") by (vm_compute; discriminate).
  assert (H2 : Js.length (cleanIdentifier "--") < 2) by reflexivity.
  split; [exact H1|]. split; [exact H2|].
  exact (proj1 (cleaned_too_short_is_invalid_format
                  noFlights "--" november novemberLater healthyTracker H1 H2)).
Defined.

(** C6 fails as stated: ["--"] has two characters and none left after
    cleaning, yet the error is not [IdentifierTooShort]. *)
Lemma cleaned_too_short_not_reported_too_short :
  ~ (forall (net : Network) (identifier : string) (now later : Clock)
            (s : ApiUsageTracker.t),
        2 <= Js.length identifier ->
        Js.length (cleanIdentifier identifier) < 2 ->
        fst (getFlightData net identifier now later s) = Rejected IdentifierTooShort).
Proof.
  intros H.
  specialize (H noFlights "--" november novemberLater healthyTracker).
  vm_compute in H. discriminate H; [discriminate | reflexivity].
Qed.

(** C7, as the code has it.  The quota is consulted before the identifier
    is cleaned and classified: with the quota used up, every identifier of
    two characters or more is rejected with [QuotaExceeded], whatever its
    format and the provider; [InvalidFormat] is the answer for an
    identifier matching neither pattern only when the quota allows a
    request. *)
Theorem quota_consult_precedes_classification
        (net : Network) (identifier : string) (now later : Clock)
        (s : ApiUsageTracker.t) :
  2 <= Js.length identifier ->
  (fst (ApiUsageTracker.canMakeRequest now s) = false ->
   getFlightData net identifier now later s
   = (Rejected (QuotaExceeded (used now s) (ApiUsageTracker.monthlyLimit s)),
      current now s))
  /\ (fst (ApiUsageTracker.canMakeRequest now s) = true ->
      isFlightNumber (cleanIdentifier identifier) = false ->
      isTailNumber (cleanIdentifier identifier) = false ->
      fst (getFlightData net identifier now later s) = Rejected InvalidFormat).
Proof.
  intros Hlen. assert (Hprep := prepare_long identifier now s Hlen).
  cbv zeta in Hprep. rewrite fst_canMakeRequest. split.
  - intros Hq. rewrite Hq in Hprep.
    rewrite (getFlightData_rejected_early _ _ _ _ _ _ (f_equal fst Hprep)).
    rewrite Hprep. reflexivity.
  - intros Hq Hf Ht. rewrite Hq, Hf, Ht in Hprep.
    rewrite (getFlightData_rejected_early _ _ _ _ _ _ (f_equal fst Hprep)).
    reflexivity.
Qed.

Lemma quota_consult_precedes_classification_witness :
  2 <= Js.length "12345"
  /\ getFlightData noFlights "12345" november novemberLater exhaustedTracker
     = (Rejected (QuotaExceeded 1000 1000), exhaustedTracker).
Proof.
  assert (H1 : 2 <= Js.length "12345") by (vm_compute; discriminate).
  split; [exact H1|].
  exact (proj1 (quota_consult_precedes_classification
                  noFlights "12345" november novemberLater exhaustedTracker H1)
               eq_refl).
Defined.

(** C7 fails as stated: ["12345"] matches neither pattern, and with the
    quota used up the error is [QuotaExceeded], not [InvalidFormat]. *)
Lemma invalid_format_depends_on_quota :
  ~ (forall (net : Network) (identifier : string) (now later : Clock)
            (s : ApiUsageTracker.t),
        2 <= Js.length (cleanIdentifier identifier) ->
        isFlightNumber (cleanIdentifier identifier) = false ->
        isTailNumber (cleanIdentifier identifier) = false ->
        fst (getFlightData net identifier now later s) = Rejected InvalidFormat).
Proof.
  intros H.
  specialize (H noFlights "12345" november novemberLater exhaustedTracker).
  vm_compute in H. discriminate H; (discriminate || reflexivity).
Qed.

(** C9, as the code has it.  The two patterns overlap, and [getFlightData]
    asks [isFlightNumber] first: an identifier that passes the length and
    quota checks is looked up as a flight number when its cleaned form
    matches the flight number pattern, as a tail number when it matches the
    tail number patterns only, and is rejected when it matches neither. *)
Theorem flight_number_takes_precedence
        (identifier : string) (now : Clock) (s : ApiUsageTracker.t) :
  2 <= Js.length identifier ->
  fst (ApiUsageTracker.canMakeRequest now s) = true ->
  fst (prepare identifier now s)
  = (let clean := cleanIdentifier identifier in
     if isFlightNumber clean then inr (flight_number, clean)
     else if isTailNumber clean then inr (tail_number, clean)
     else inl InvalidFormat).
Proof.
  intros Hlen Hq. rewrite fst_canMakeRequest in Hq.
  rewrite (prepare_long identifier now s Hlen), Hq. reflexivity.
Qed.

Lemma flight_number_takes_precedence_witness :
  2 <= Js.length "UA-400"
  /\ fst (ApiUsageTracker.canMakeRequest november healthyTracker) = true
  /\ fst (prepare "UA-400" november healthyTracker) = inr (flight_number, "UA400").
Proof.
  assert (H1 : 2 <= Js.length "UA-400") by (vm_compute; discriminate).
  assert (H2 : fst (ApiUsageTracker.canMakeRequest november healthyTracker) = true)
    by reflexivity.
  split; [exact H1|]. split; [exact H2|].
  exact (flight_number_takes_precedence "UA-400" november healthyTracker H1 H2).
Defined.

(** C9 fails as stated: the cleaned identifier ["UA400"] satisfies both
    [isFlightNumber] and [isTailNumber]. *)
Lemma patterns_overlap :
  ~ (forall identifier : string,
        cleanIdentifier identifier = identifier ->
        ~ (isFlightNumber identifier = true /\ isTailNumber identifier = true)).
Proof.
  intros H. apply (H "UA400"); [reflexivity|]. split; reflexivity.
Qed.

End Identifiers.

(** ** Normalized records and the formatter *)

Section Normalization.

Import FlightService.

(** C10, as the code has it.  A record made by [normalizeFlightData] has an
    airline name, the operator when the provider gave one and the sentinel
    'Unknown Airline' otherwise, and departure and arrival airport labels
    (name, else IATA code, else 'Unknown'); the formatter takes it for
    private aviation exactly when that airline name is empty or is the
    sentinel. *)
Theorem normalized_private_aviation_decision
        (flight : FlightAwareFlight.t) (searchType : string) :
  let normalized := normalizeFlightData flight searchType in
  exists name : string,
    airlineName normalized = Some name
    /\ (forall operator, FlightAwareFlight.operator flight = Some operator ->
                         name = operator)
    /\ (FlightAwareFlight.operator flight = None -> name = "Unknown Airline")
    /\ Js.chain (NormalizedFlight.departure normalized) AirportInfo.airport
       = Some (airportLabel (FlightAwareFlight.origin flight))
    /\ Js.chain (NormalizedFlight.arrival normalized) AirportInfo.airport
       = Some (airportLabel (FlightAwareFlight.destination flight))
    /\ (isPrivateAviation normalized = true <->
        name = "" \/ name = "Unknown Airline").
Proof.
  intros normalized.
  exists (Js.orDefault (FlightAwareFlight.operator flight) "Unknown Airline").
  split; [reflexivity|]. split; [|split; [|split; [|split]]].
  - intros operator ->. reflexivity.
  - intros ->. reflexivity.
  - subst normalized. simpl.
    destruct (FlightAwareFlight.origin flight) as [[[n|] [c|] i]|]; reflexivity.
  - subst normalized. simpl.
    destruct (FlightAwareFlight.destination flight) as [[[n|] [c|] i]|]; reflexivity.
  - unfold isPrivateAviation. subst normalized.
    cbn [airlineName normalizeFlightData NormalizedFlight.airline Js.chain
         AirlineInfo.name Js.truthy].
    set (name := Js.orDefault _ _).
    rewrite orb_true_iff, negb_true_iff, negb_false_iff, !String.eqb_eq.
    tauto.
Qed.

(** C10 fails as stated: for an operator that is the empty string the
    record counts as private aviation and its airline name is not the
    sentinel. *)
Lemma empty_operator_is_private_without_sentinel :
  ~ (forall (flight : FlightAwareFlight.t) (searchType : string),
        isPrivateAviation (normalizeFlightData flight searchType) = true <->
        airlineName (normalizeFlightData flight searchType)
        = Some "Unknown Airline").
Proof.
  intros H. destruct (H blankOperator "tail_number") as [H1 _].
  specialize (H1 eq_refl). discriminate H1.
Qed.

End Normalization.

(** ** One check of a tracked flight *)

Section SingleCheck.

Import FlightMonitor.

Lemma resume_not_found (tracking : TrackedFlight.t) (later : Clock)
      (s : ApiUsageTracker.t) :
  resume (Resolved None) tracking later s = (tracking, [], s).
Proof. reflexivity. Qed.

Lemma resume_rejected (e : FlightError) (tracking : TrackedFlight.t)
      (later : Clock) (s : ApiUsageTracker.t) :
  resume (Rejected e) tracking later s = (tracking, [], s).
Proof. reflexivity. Qed.

Lemma resume_found (updatedFlight : NormalizedFlight.t)
      (tracking : TrackedFlight.t) (later : Clock) (s : ApiUsageTracker.t) :
  let after := fst (fst (resume (Resolved (Some updatedFlight)) tracking later s)) in
  TrackedFlight.lastUpdated after = getTime later
  /\ TrackedFlight.flight after = updatedFlight.
Proof.
  unfold resume, ApiUsageTracker.bind.
  destruct (FlightService.shouldSendUpdate _ _).
  - destruct (sendFlightUpdate _ _ _ later s) as [posts s1]. simpl. tauto.
  - simpl. tauto.
Qed.

(** C8, as the code has it.  [checkSingleFlight] sets [lastUpdated] to the
    time of the check, and stores the new record, only when [getFlightData]
    gives a flight; when it gives null or throws, the tracked object is left
    as it was, [lastUpdated] included, and nothing is posted. *)
Theorem lastUpdated_records_found_flights_only
        (net : Network) (tracking : TrackedFlight.t) (now later : Clock)
        (s : ApiUsageTracker.t) :
  let after := fst (checkSingleFlight net tracking now later s) in
  match fst (FlightService.getFlightData
               net (TrackedFlight.identifier tracking) now later s) with
  | Resolved (Some updatedFlight) =>
      TrackedFlight.lastUpdated (fst after) = getTime later
      /\ TrackedFlight.flight (fst after) = updatedFlight
  | Resolved None | Rejected _ => after = (tracking, [])
  end.
Proof.
  unfold checkSingleFlight.
  destruct (FlightService.getFlightData _ _ _ _ _) as [[[updatedFlight|]|e] s1];
    cbn [fst].
  - apply resume_found.
  - now rewrite resume_not_found.
  - now rewrite resume_rejected.
Qed.

(** C8 fails as stated: the provider knows no flight, [getFlightData]
    gives null, and [lastUpdated] stays at its October value. *)
Lemma lastUpdated_not_advanced_when_not_found :
  ~ (forall (net : Network) (tracking : TrackedFlight.t) (now later : Clock)
            (s : ApiUsageTracker.t),
        TrackedFlight.lastUpdated
          (fst (fst (checkSingleFlight net tracking now later s)))
        = getTime later).
Proof.
  intros H.
  specialize (H noFlights ua400Scheduled november novemberLater healthyTracker).
  vm_compute in H. discriminate H.
Qed.

End SingleCheck.

(** ** The registry as a map *)

Section RegistryMap.

Import FlightMonitor.

Lemma get_In (key : string) (tracking : TrackedFlight.t) (m : Registry) :
  get key m = Some tracking -> In (key, tracking) m.
Proof.
  induction m as [|[k v] rest IH]; simpl; [discriminate|].
  destruct (key =? k)%string eqn:E.
  - apply String.eqb_eq in E. subst k. intros [= ->]. now left.
  - intros H. right. now apply IH.
Qed.

Lemma get_None_notin (key : string) (m : Registry) :
  get key m = None <-> ~ In key (map fst m).
Proof.
  induction m as [|[k v] rest IH]; simpl; [tauto|].
  destruct (key =? k)%string eqn:E.
  - apply String.eqb_eq in E. subst k. split; [discriminate | tauto].
  - apply String.eqb_neq in E. rewrite IH. split.
    + intros H [H1 | H1]; [now apply E | now apply H].
    + tauto.
Qed.

Lemma In_get (key : string) (tracking : TrackedFlight.t) (m : Registry) :
  NoDup (map fst m) -> In (key, tracking) m -> get key m = Some tracking.
Proof.
  induction m as [|[k v] rest IH]; simpl; [tauto|].
  intros Hnd [H | H].
  - inversion H; subst. now rewrite String.eqb_refl.
  - inversion Hnd as [|? ? Hnotin Hnd']; subst.
    destruct (key =? k)%string eqn:E.
    + apply String.eqb_eq in E. subst k. exfalso. apply Hnotin.
      change key with (fst (key, tracking)). now apply in_map.
    + now apply IH.
Qed.

Lemma NoDup_keys_filter (p : string * TrackedFlight.t -> bool) (m : Registry) :
  NoDup (map fst m) -> NoDup (map fst (filter p m)).
Proof.
  induction m as [|[k v] rest IH]; simpl; [trivial|].
  intros Hnd. inversion Hnd as [|? ? Hnotin Hnd']; subst.
  destruct (p (k, v)); simpl; [|now apply IH].
  constructor; [|now apply IH].
  intros Hin. apply Hnotin. apply in_map_iff in Hin.
  destruct Hin as [[k' v'] [Hk Hin]]. simpl in Hk. subst k'.
  apply filter_In in Hin. destruct Hin as [Hin _].
  change k with (fst (k, v')). now apply in_map.
Qed.

Lemma get_filter (q : TrackedFlight.t -> bool) (key : string)
      (tracking : TrackedFlight.t) (m : Registry) :
  NoDup (map fst m) ->
  get key m = Some tracking ->
  get key (filter (fun entry => q (snd entry)) m)
  = if q tracking then Some tracking else None.
Proof.
  intros Hnd Hget. destruct (q tracking) eqn:Hq.
  - apply In_get; [now apply NoDup_keys_filter|].
    apply filter_In. split; [now apply get_In | exact Hq].
  - apply get_None_notin. intros Hin. apply in_map_iff in Hin.
    destruct Hin as [[k v] [Hk Hin]]. simpl in Hk. subst k.
    apply filter_In in Hin. destruct Hin as [Hin Hqv]. simpl in Hqv.
    apply (In_get _ _ _ Hnd) in Hin. rewrite Hget in Hin.
    inversion Hin; subst. congruence.
Qed.

Lemma get_mutate_other (key k : string) (v : TrackedFlight.t) (m : Registry) :
  k <> key -> get key (mutate k v m) = get key m.
Proof.
  intros Hne. induction m as [|[k' v'] rest IH]; simpl; [reflexivity|].
  destruct (k =? k')%string eqn:E; simpl.
  - apply String.eqb_eq in E. subst k'.
    destruct (key =? k)%string eqn:E'; [|reflexivity].
    apply String.eqb_eq in E'. congruence.
  - now rewrite IH.
Qed.

Lemma keys_mutate (k : string) (v : TrackedFlight.t) (m : Registry) :
  map fst (mutate k v m) = map fst m.
Proof.
  induction m as [|[k' v'] rest IH]; simpl; [reflexivity|].
  destruct (k =? k')%string; simpl; [reflexivity | now rewrite IH].
Qed.

End RegistryMap.

(** ** Sorting the candidates *)

Section Sorting.

Import FlightMonitor.

Lemma insertDesc_perm a l : Permutation (insertDesc a l) (a :: l).
Proof.
  induction l as [|b rest IH]; simpl; [reflexivity|].
  destruct (_ <=? _); [reflexivity|].
  rewrite IH. apply perm_swap.
Qed.

Lemma sortByLastUpdatedDesc_perm l : Permutation (sortByLastUpdatedDesc l) l.
Proof.
  induction l as [|a rest IH]; simpl; [reflexivity|].
  rewrite insertDesc_perm. now constructor.
Qed.

Lemma insertDesc_sorted a l :
  StronglySorted noEarlier l -> StronglySorted noEarlier (insertDesc a l).
Proof.
  induction 1 as [|b rest Hs IH Hall]; simpl.
  - constructor; constructor.
  - destruct (_ <=? _) eqn:E.
    + apply Z.leb_le in E. constructor; [now constructor|].
      constructor; [exact E|].
      eapply Forall_impl; [|exact Hall].
      intros c Hc. unfold noEarlier in *. lia.
    + apply Z.leb_gt in E. constructor; [exact IH|].
      eapply Permutation_Forall; [symmetry; apply insertDesc_perm|].
      constructor; [|exact Hall]. unfold noEarlier. lia.
Qed.

Lemma sortByLastUpdatedDesc_sorted l :
  StronglySorted noEarlier (sortByLastUpdatedDesc l).
Proof.
  induction l as [|a rest IH]; simpl; [constructor|].
  now apply insertDesc_sorted.
Qed.

Lemma skipn_incl {A : Type} (n : nat) (l : list A) (x : A) :
  In x (skipn n l) -> In x l.
Proof.
  intros H. rewrite <- (firstn_skipn n l). apply in_or_app. now right.
Qed.

Lemma firstn_incl {A : Type} (n : nat) (l : list A) (x : A) :
  In x (firstn n l) -> In x l.
Proof.
  intros H. rewrite <- (firstn_skipn n l). apply in_or_app. now left.
Qed.

Lemma sorted_prefix_dominates (l : list (string * TrackedFlight.t)) (n : nat) a b :
  StronglySorted noEarlier l ->
  In a (firstn n l) -> In b (skipn n l) -> noEarlier a b.
Proof.
  intros Hs. revert n. induction Hs as [|c rest Hs IH Hall]; intros n Ha Hb.
  - destruct n; simpl in Ha; contradiction.
  - destruct n as [|n]; simpl in Ha, Hb; [contradiction|].
    destruct Ha as [-> | Ha].
    + rewrite Forall_forall in Hall. apply Hall.
      apply (skipn_incl n). exact Hb.
    + now apply (IH n).
Qed.

End Sorting.

(** ** The poll cycle *)

Section PollCycle.

Import FlightMonitor.

Lemma scan_kept (currentTime : Clock) (m : Registry) :
  fst (scan currentTime m) = filter (fun entry => negb (completed (snd entry))) m.
Proof.
  induction m as [|[k v] rest IH]; simpl; [reflexivity|].
  destruct (scan currentTime rest) as [kept flightsToCheck]. simpl in IH.
  unfold completed at 1. simpl.
  destruct (TrackedFlight.hasLanded v && (10 <? TrackedFlight.updateCount v))%bool;
    simpl; now rewrite IH.
Qed.

Lemma scan_flightsToCheck (currentTime : Clock) (m : Registry) :
  snd (scan currentTime m) = dueForCheck currentTime m.
Proof.
  unfold dueForCheck.
  induction m as [|[k v] rest IH]; simpl; [reflexivity|].
  destruct (scan currentTime rest) as [kept flightsToCheck]. simpl in IH.
  unfold isDue at 1, completed at 1. simpl.
  destruct (TrackedFlight.hasLanded v && (10 <? TrackedFlight.updateCount v))%bool;
    simpl; [exact IH|].
  change (5 * 60 * 1000) with 300000.
  destruct (300000 <? _); simpl; now rewrite IH.
Qed.

Lemma launch_keys (flightsToCheck : list (string * TrackedFlight.t))
      (now : Clock) (s : ApiUsageTracker.t) :
  map key (fst (launch flightsToCheck now s)) = map fst flightsToCheck.
Proof.
  revert s. induction flightsToCheck as [|[k v] rest IH]; intros s; [reflexivity|].
  simpl. unfold ApiUsageTracker.bind.
  destruct (FlightService.prepare _ now s) as [c s1].
  specialize (IH s1). destruct (launch rest now s1) as [pending s2].
  simpl in *. now rewrite IH.
Qed.

(** One step of [settle]. *)
Lemma settle_cons (w : World) (p : Pending) (rest : list Pending) (o : Outcome) :
  exists tracking' s2 posts,
    settle w (p :: rest) o
    = settle w rest (mkOutcome (mutate (key p) tracking' (trackedFlights o)) s2
                               (fetched o) (posted o ++ posts)).
Proof.
  simpl.
  destruct (match checked p with
            | inl e => _
            | inr (k, clean) => _
            end) as [result s1].
  destruct (resume result (tracking p) (answered w (key p)) s1)
    as [[tracking' posts] s2].
  now exists tracking', s2, posts.
Qed.

Lemma settle_fetched (w : World) (pending : list Pending) (o : Outcome) :
  fetched (settle w pending o) = fetched o.
Proof.
  revert o. induction pending as [|p rest IH]; intros o; [reflexivity|].
  destruct (settle_cons w p rest o) as (t' & s2 & posts & ->).
  now rewrite IH.
Qed.

Lemma settle_keys (w : World) (pending : list Pending) (o : Outcome) :
  map fst (trackedFlights (settle w pending o)) = map fst (trackedFlights o).
Proof.
  revert o. induction pending as [|p rest IH]; intros o; [reflexivity|].
  destruct (settle_cons w p rest o) as (t' & s2 & posts & ->).
  rewrite IH. simpl. apply keys_mutate.
Qed.

Lemma settle_untouched (w : World) (pending : list Pending) (o : Outcome)
      (k : string) :
  ~ In k (map key pending) ->
  get k (trackedFlights (settle w pending o)) = get k (trackedFlights o).
Proof.
  revert o. induction pending as [|p rest IH]; intros o Hnotin; [reflexivity|].
  destruct (settle_cons w p rest o) as (t' & s2 & posts & ->).
  simpl in Hnotin. rewrite IH by tauto. simpl.
  apply get_mutate_other. tauto.
Qed.

Lemma shouldLimitTracking_after_canMakeRequest now s :
  fst (FlightService.shouldLimitTracking
         now (snd (FlightService.canMakeRequest now s)))
  = fst (FlightService.shouldLimitTracking now s).
Proof.
  unfold FlightService.shouldLimitTracking, FlightService.canMakeRequest.
  rewrite canMakeRequest_eq, !shouldLimitTracking_eq.
  cbn [fst snd]. now rewrite current_idempotent, monthlyLimit_current.
Qed.

(** A cycle that passes the quota gate: the completed entries are dropped,
    the chosen candidates are checked, each check writes its own entry. *)
Lemma checkFlightUpdates_allowed (w : World) (currentTime : Clock)
      (m : Registry) (s : ApiUsageTracker.t) :
  fst (FlightService.canMakeRequest currentTime s) = true ->
  let chosen := limit (fst (FlightService.shouldLimitTracking currentTime s))
                      (dueForCheck currentTime m) in
  exists pending s3,
    map key pending = map fst chosen
    /\ checkFlightUpdates w currentTime m s
       = settle w pending
           (mkOutcome (filter (fun entry => negb (completed (snd entry))) m)
                      s3 (map fst chosen) []).
Proof.
  intros Hq chosen. unfold checkFlightUpdates.
  assert (Hlim := shouldLimitTracking_after_canMakeRequest currentTime s).
  destruct (FlightService.canMakeRequest currentTime s) as [allowed s1].
  simpl in Hq, Hlim. subst allowed. cbn [negb].
  destruct (FlightService.shouldLimitTracking currentTime s1) as [b s2].
  simpl in Hlim. subst b.
  assert (Hk := scan_kept currentTime m).
  assert (Hc := scan_flightsToCheck currentTime m).
  destruct (scan currentTime m) as [kept flightsToCheck].
  simpl in Hk, Hc. subst kept flightsToCheck. fold chosen.
  assert (Hl := launch_keys chosen currentTime s2).
  destruct (launch chosen currentTime s2) as [pending s3].
  exists pending, s3. split; [exact Hl | reflexivity].
Qed.

(** C4. When [canMakeRequest()] is false as [checkFlightUpdates] starts,
    the cycle returns with the registry as it was, completed entries
    included, with no call of [getFlightData] and no message posted. *)
Theorem exhausted_quota_skips_cycle
        (w : World) (currentTime : Clock) (m : Registry) (s : ApiUsageTracker.t) :
  fst (FlightService.canMakeRequest currentTime s) = false ->
  trackedFlights (checkFlightUpdates w currentTime m s) = m
  /\ fetched (checkFlightUpdates w currentTime m s) = []
  /\ posted (checkFlightUpdates w currentTime m s) = [].
Proof.
  intros Hq. unfold checkFlightUpdates.
  destruct (FlightService.canMakeRequest currentTime s) as [allowed s1].
  simpl in Hq. subst allowed. simpl. auto.
Qed.

Lemma exhausted_quota_skips_cycle_witness :
  fst (FlightService.canMakeRequest november exhaustedTracker) = false
  /\ trackedFlights (checkFlightUpdates sampleWorld november sampleRegistry
                                        exhaustedTracker)
     = sampleRegistry.
Proof.
  assert (H : fst (FlightService.canMakeRequest november exhaustedTracker) = false)
    by reflexivity.
  split; [exact H|].
  exact (proj1 (exhausted_quota_skips_cycle
                  sampleWorld november sampleRegistry exhaustedTracker H)).
Defined.

(** C2. In a cycle that passes the quota gate, an entry of the registry is
    removed exactly when it has landed and its update count is above 10:
    with [hasLanded] true, a count of 11 removes it and a count of 10
    keeps it. *)
Theorem landed_entry_removed_above_ten_updates
        (w : World) (currentTime : Clock) (m : Registry) (s : ApiUsageTracker.t)
        (k : string) (tracking : TrackedFlight.t) :
  NoDup (map fst m) ->
  fst (FlightService.canMakeRequest currentTime s) = true ->
  get k m = Some tracking ->
  let after := trackedFlights (checkFlightUpdates w currentTime m s) in
  (has k after = false <->
   TrackedFlight.hasLanded tracking = true
   /\ 10 < TrackedFlight.updateCount tracking)
  /\ (TrackedFlight.hasLanded tracking = true ->
      TrackedFlight.updateCount tracking = 11 -> has k after = false)
  /\ (TrackedFlight.hasLanded tracking = true ->
      TrackedFlight.updateCount tracking = 10 -> has k after = true).
Proof.
  intros Hnd Hq Hget after.
  assert (Hiff : has k after = false <->
                 TrackedFlight.hasLanded tracking = true
                 /\ 10 < TrackedFlight.updateCount tracking).
  { destruct (checkFlightUpdates_allowed w currentTime m s Hq)
      as (pending & s3 & _ & Heq).
    assert (Hnone : has k after = false <-> get k after = None).
    { unfold has. destruct (get k after); split; congruence. }
    rewrite Hnone. subst after. rewrite get_None_notin, Heq, settle_keys.
    cbn [trackedFlights]. rewrite <- get_None_notin.
    rewrite (get_filter (fun t => negb (completed t)) k tracking m Hnd Hget).
    unfold completed. rewrite <- Z.ltb_lt, <- andb_true_iff.
    destruct (TrackedFlight.hasLanded tracking
              && (10 <? TrackedFlight.updateCount tracking))%bool;
      simpl; split; congruence. }
  split; [exact Hiff|]. split.
  - intros Hl Hc. apply Hiff. split; [exact Hl | lia].
  - intros Hl Hc. apply not_false_is_true. intros Hf.
    apply Hiff in Hf. lia.
Qed.

Lemma sampleRegistry_NoDup : NoDup (map fst sampleRegistry).
Proof.
  repeat constructor; simpl; intuition discriminate.
Defined.

Lemma landed_entry_removed_above_ten_updates_witness :
  NoDup (map fst sampleRegistry)
  /\ fst (FlightService.canMakeRequest november healthyTracker) = true
  /\ get "N300DG_C3" sampleRegistry
     = Some (tracked "N300DG" "C3" "Completed" (minutesBefore 30 november) 11 true)
  /\ has "N300DG_C3"
         (trackedFlights (checkFlightUpdates sampleWorld november sampleRegistry
                                             healthyTracker))
     = false.
Proof.
  assert (H2 : fst (FlightService.canMakeRequest november healthyTracker) = true)
    by reflexivity.
  assert (H3 : get "N300DG_C3" sampleRegistry
               = Some (tracked "N300DG" "C3" "Completed"
                               (minutesBefore 30 november) 11 true))
    by reflexivity.
  split; [exact sampleRegistry_NoDup|]. split; [exact H2|]. split; [exact H3|].
  exact (proj1 (proj2 (landed_entry_removed_above_ten_updates
                         sampleWorld november sampleRegistry healthyTracker
                         "N300DG_C3" _ sampleRegistry_NoDup H2 H3))
               eq_refl eq_refl).
Defined.

Lemma NoDup_firstn {A : Type} (n : nat) (l : list A) :
  NoDup l -> NoDup (firstn n l).
Proof.
  intros H. rewrite <- (firstn_skipn n l) in H.
  now apply NoDup_app_remove_r in H.
Qed.

Lemma limit_critical (flightsToCheck : list (string * TrackedFlight.t)) :
  (2 < List.length flightsToCheck)%nat ->
  limit true flightsToCheck = firstn 2 (sortByLastUpdatedDesc flightsToCheck).
Proof.
  intros H. unfold limit.
  replace (2 <? Z.of_nat (List.length flightsToCheck)) with true; [reflexivity|].
  symmetry. apply Z.ltb_lt. lia.
Qed.

Lemma limit_few (b : bool) (flightsToCheck : list (string * TrackedFlight.t)) :
  (List.length flightsToCheck <= 2)%nat -> limit b flightsToCheck = flightsToCheck.
Proof.
  intros H. unfold limit.
  replace (2 <? Z.of_nat (List.length flightsToCheck)) with false;
    [now rewrite andb_false_r|].
  symmetry. apply Z.ltb_ge. lia.
Qed.

Lemma dueForCheck_get (currentTime : Clock) (m : Registry) (k : string)
      (tracking : TrackedFlight.t) :
  NoDup (map fst m) ->
  In (k, tracking) (dueForCheck currentTime m) ->
  get k m = Some tracking
  /\ get k (filter (fun entry => negb (completed (snd entry))) m) = Some tracking.
Proof.
  intros Hnd Hin. apply filter_In in Hin. destruct Hin as [Hin Hdue].
  simpl in Hdue. unfold isDue in Hdue. apply andb_true_iff in Hdue.
  destruct Hdue as [Hkeep _].
  assert (Hget : get k m = Some tracking) by now apply In_get.
  split; [exact Hget|].
  rewrite (get_filter (fun t => negb (completed t)) k tracking m Hnd Hget).
  now rewrite Hkeep.
Qed.

End PollCycle.

(** ** The cases of the test suites *)

Section Cases.

Import FlightService FlightMonitor.

Example flight_numbers_accepted :
  map isFlightNumber ["UA400"; "AA1"; "BA9999"; "UAL400"; "UA400A"; "ua400"]
  = [true; true; true; true; true; true].
Proof. reflexivity. Qed.

Example flight_numbers_refused :
  map isFlightNumber ["N12345"; "N300DG"; "U400"; "12345"; ""; "ABCDE"]
  = [false; false; false; false; false; false].
Proof. reflexivity. Qed.

Example tail_numbers_accepted :
  map isTailNumber ["N12345"; "N300DG"; "N1"; "N123AB"; "GABCD"; "CFABC"; "n300dg"]
  = [true; true; true; true; true; true; true].
Proof. reflexivity. Qed.

Example tail_numbers_refused :
  map isTailNumber ["12345"; ""; "ABCDEFGH"] = [false; false; false].
Proof. reflexivity. Qed.

Example punctuation_is_stripped :
  map cleanIdentifier ["UA-400"; "UA 400"; "UA.400"; "UA_400"]
  = ["UA400"; "UA400"; "UA400"; "UA400"].
Proof. reflexivity. Qed.

Example statuses_mapped :
  map mapFlightAwareStatus
      [Some "Scheduled"; Some "Active"; Some "Completed"; Some "Cancelled";
       Some "Diverted"; Some "En Route"; None]
  = ["scheduled"; "active"; "landed"; "cancelled"; "diverted"; "en route";
     "unknown"].
Proof. reflexivity. Qed.

Example usage_levels :
  map (fun count =>
         ApiUsageStatus.status
           (fst (ApiUsageTracker.getUsageStatus november (trackerWith count 10))))
      [500; 799; 800; 850; 949; 950; 1000]
  = [healthy; healthy; warning; warning; warning; critical; critical].
Proof. reflexivity. Qed.

Example critical_cycle_takes_the_two_latest :
  fetched (checkFlightUpdates sampleWorld november sampleRegistry criticalTracker)
  = ["AA1_C2"; "UA400_C2"].
Proof. reflexivity. Qed.

Example healthy_cycle_takes_all_due :
  fetched (checkFlightUpdates sampleWorld november sampleRegistry healthyTracker)
  = ["UA400_C1"; "DL123_C1"; "AA1_C2"; "UA400_C2"].
Proof. reflexivity. Qed.

Example ten_updates_keep_the_entry :
  map fst (trackedFlights
             (checkFlightUpdates sampleWorld november landedTenUpdates healthyTracker))
  = ["N300DG_C3"].
Proof. reflexivity. Qed.

Example status_change_is_posted :
  snd (fst (checkSingleFlight ua400Everywhere ua400Scheduled november novemberLater
                              healthyTracker))
  = [mkPost "C1" "*Flight UA400* is now airborne!" false].
Proof. reflexivity. Qed.

End Cases.

(** * Further properties *)

(** ** Quota tracker: counting, thresholds, loading *)

Section QuotaAccounting.

Import ApiUsageTracker.

Lemma current_not_stale now s : ~ stale now s -> current now s = s.
Proof. intros H. unfold current. now rewrite rollover_current. Qed.

Lemma stale_dec now s : stale now s \/ ~ stale now s.
Proof.
  unfold stale.
  destruct (Z.eq_dec (UsageData.month (usage s)) (getMonth now));
    destruct (Z.eq_dec (UsageData.year (usage s)) (getFullYear now)); tauto.
Qed.

Lemma current_cases now s :
  (stale now s /\ current now s = fresh now s)
  \/ (~ stale now s /\ current now s = s).
Proof.
  destruct (stale_dec now s) as [H | H].
  - left. split; [exact H|]. unfold current. now rewrite rollover_stale.
  - right. split; [exact H | now apply current_not_stale].
Qed.

(** [recordRequest], in one step from the state the rollover check leaves. *)
Lemma recordRequest_eq type flightId now s :
  recordRequest type flightId now s
  = (tt,
     let u := usage (current now s) in
     let requests := (UsageData.requests u
                      ++ [ApiRequest.mk (toISOString now) type flightId])%list in
     ApiUsageTracker.mk (monthlyLimit s)
       (UsageData.mk (UsageData.month u) (UsageData.year u) (UsageData.count u + 1)
          (if 100 <? Z.of_nat (List.length requests)
           then lastHundred requests else requests)
          (UsageData.lastReset u))).
Proof.
  unfold recordRequest, bind. rewrite rollover_current_eq. unfold modify.
  rewrite getUsagePercentage_eq. cbn [fst snd]. unfold ret. f_equal.
  rewrite monthlyLimit_current.
  apply current_not_stale.
  assert (H := not_stale_current now s). unfold stale in *. simpl. exact H.
Qed.

Lemma lastHundred_length (l : list ApiRequest.t) :
  (100 < List.length l)%nat -> List.length (lastHundred l) = 100%nat.
Proof. intros H. unfold lastHundred. rewrite length_skipn. lia. Qed.

Lemma lastHundred_keeps_last (l : list ApiRequest.t) (r : ApiRequest.t) :
  (100 <= List.length l)%nat ->
  lastHundred (l ++ [r]) = (skipn (List.length l - 99) l ++ [r])%list.
Proof.
  intros H. unfold lastHundred. rewrite length_app. simpl.
  replace (List.length l + 1 - 100)%nat with (List.length l - 99)%nat by lia.
  rewrite skipn_app.
  replace (List.length l - 99 - List.length l)%nat with 0%nat by lia.
  reflexivity.
Qed.

(** X1. Whatever the log held before, after [recordRequest] it has at most
    100 entries and ends with the request just made. *)
Theorem recordRequest_bounds_the_log
        (type : string) (flightId : option string) (now : Clock)
        (s : ApiUsageTracker.t) :
  (List.length (logOf (charged type flightId now s)) <= 100)%nat
  /\ exists earlier,
       logOf (charged type flightId now s)
       = (earlier ++ [ApiRequest.mk (toISOString now) type flightId])%list.
Proof.
  unfold charged, logOf. rewrite recordRequest_eq. cbv zeta. cbn [snd usage UsageData.requests].
  set (old := UsageData.requests (usage (current now s))).
  set (r := ApiRequest.mk (toISOString now) type flightId).
  destruct (100 <? Z.of_nat (List.length (old ++ [r]))) eqn:E.
  - apply Z.ltb_lt in E. rewrite length_app in E. simpl in E.
    split.
    + rewrite lastHundred_length; [lia|]. rewrite length_app. simpl. lia.
    + exists (skipn (List.length old - 99) old).
      apply lastHundred_keeps_last. lia.
  - apply Z.ltb_ge in E. split; [lia|]. now exists old.
Qed.

Lemma used_charged type flightId now s :
  used now (charged type flightId now s) = used now s + 1.
Proof.
  unfold used, charged. rewrite recordRequest_eq. cbv zeta. cbn [snd].
  rewrite current_not_stale; [reflexivity|].
  assert (H := not_stale_current now s). unfold stale in *. simpl. exact H.
Qed.

Lemma monthlyLimit_charged type flightId now s :
  monthlyLimit (charged type flightId now s) = monthlyLimit s.
Proof. unfold charged. now rewrite recordRequest_eq. Qed.

Lemma used_recordMany n type flightId now s :
  used now (recordMany n type flightId now s) = used now s + Z.of_nat n.
Proof.
  unfold recordMany. induction n as [|n IH].
  - simpl. lia.
  - rewrite Nat.iter_succ, used_charged, IH. lia.
Qed.

Lemma monthlyLimit_recordMany n type flightId now s :
  monthlyLimit (recordMany n type flightId now s) = monthlyLimit s.
Proof.
  unfold recordMany. induction n as [|n IH]; [reflexivity|].
  now rewrite Nat.iter_succ, monthlyLimit_charged.
Qed.

(** X2. Each [recordRequest] counts one call: after [n] of them in the
    month, [canMakeRequest] answers whether the calls counted before plus
    [n] are still below the limit, and [getRemainingRequests] gives what is
    left of the limit, never less than zero. *)
Theorem recorded_requests_use_up_the_limit
        (n : nat) (type : string) (flightId : option string) (now : Clock)
        (s : ApiUsageTracker.t) :
  let after := recordMany n type flightId now s in
  fst (canMakeRequest now after) = (used now s + Z.of_nat n <? monthlyLimit s)
  /\ fst (getRemainingRequests now after)
     = Z.max 0 (monthlyLimit s - (used now s + Z.of_nat n)).
Proof.
  intros after. subst after.
  rewrite canMakeRequest_eq, getRemainingRequests_eq. cbn [fst].
  fold (used now (recordMany n type flightId now s)).
  now rewrite used_recordMany, monthlyLimit_recordMany.
Qed.

(** X3. Within the month the reading methods change nothing: on a state
    whose month and year are the clock's, [canMakeRequest],
    [getRemainingRequests], [getUsagePercentage], [getUsageStatus] and
    [shouldLimitTracking] all leave the state as it was. *)
Theorem reading_leaves_the_month_state (now : Clock) (s : ApiUsageTracker.t) :
  ~ stale now s ->
  snd (canMakeRequest now s) = s
  /\ snd (getRemainingRequests now s) = s
  /\ snd (getUsagePercentage now s) = s
  /\ snd (getUsageStatus now s) = s
  /\ snd (shouldLimitTracking now s) = s.
Proof.
  intros H.
  rewrite canMakeRequest_eq, getRemainingRequests_eq, getUsagePercentage_eq,
    snd_getUsageStatus, shouldLimitTracking_eq.
  cbn [snd]. rewrite (current_not_stale now s H). auto.
Qed.

Lemma reading_leaves_the_month_state_witness :
  ~ stale november criticalTracker
  /\ snd (getUsageStatus november criticalTracker) = criticalTracker.
Proof.
  assert (H : ~ stale november criticalTracker).
  { unfold stale. simpl. intros [H | H]; now apply H. }
  split; [exact H|].
  exact (proj1 (proj2 (proj2 (proj2 (reading_leaves_the_month_state
                                       november criticalTracker H))))).
Defined.

(** X4. Every method leaves a state of the clock's month and year, and none
    changes the monthly limit. *)
Theorem methods_leave_the_current_month
        (type : string) (flightId : option string) (now : Clock)
        (s : ApiUsageTracker.t) :
  Forall (fun after => ~ stale now after /\ monthlyLimit after = monthlyLimit s)
    [ snd (canMakeRequest now s); snd (getRemainingRequests now s);
      snd (getUsagePercentage now s); snd (getUsageStatus now s);
      snd (shouldLimitTracking now s); snd (recordRequest type flightId now s) ].
Proof.
  rewrite canMakeRequest_eq, getRemainingRequests_eq, getUsagePercentage_eq,
    snd_getUsageStatus, shouldLimitTracking_eq, recordRequest_eq.
  cbn [snd].
  assert (Hc : ~ stale now (current now s) /\ monthlyLimit (current now s) = monthlyLimit s).
  { split; [apply not_stale_current | apply monthlyLimit_current]. }
  repeat (constructor; [exact Hc|]).
  constructor; [|constructor].
  split; [|reflexivity].
  assert (H := not_stale_current now s). unfold stale in *. simpl. exact H.
Qed.

End QuotaAccounting.

Section QuotaThresholds.

Import ApiUsageTracker.

Lemma percentage_reaches (a b : positive) (c l : Z) :
  0 < l ->
  Qle_bool ((Z.pos a # b) * 100) (inject_Z c / inject_Z l * 100)
  = (Z.pos a * 100 * l <=? 100 * c * Z.pos b).
Proof.
  intros Hl. apply eq_iff_eq_true. rewrite Qle_bool_iff, Z.leb_le.
  destruct l as [|p|p]; try lia.
  cbv beta iota delta [Qle Qmult Qdiv Qinv inject_Z Qnum Qden].
  rewrite !Pos2Z.inj_mul. lia.
Qed.

Lemma critical_reached (c l : Z) :
  0 < l ->
  Qle_bool (criticalThreshold * 100) (inject_Z c / inject_Z l * 100)
  = (95 * l <=? 100 * c).
Proof.
  intros Hl. unfold criticalThreshold. rewrite percentage_reaches by assumption.
  apply eq_iff_eq_true. rewrite !Z.leb_le. lia.
Qed.

Lemma warning_reached (c l : Z) :
  0 < l ->
  Qle_bool (warningThreshold * 100) (inject_Z c / inject_Z l * 100)
  = (80 * l <=? 100 * c).
Proof.
  intros Hl. unfold warningThreshold. rewrite percentage_reaches by assumption.
  apply eq_iff_eq_true. rewrite !Z.leb_le. lia.
Qed.

Lemma getUsageStatus_eq now s :
  fst (getUsageStatus now s)
  = let percentage :=
      (inject_Z (used now s) / inject_Z (monthlyLimit s) * 100)%Q in
    ApiUsageStatus.mk
      (if Qle_bool (criticalThreshold * 100) percentage then critical
       else if Qle_bool (warningThreshold * 100) percentage then warning
       else healthy)
      (used now s) (Z.max 0 (monthlyLimit s - used now s)) (monthlyLimit s)
      (round percentage).
Proof.
  unfold getUsageStatus, bind. rewrite getRemainingRequests_eq.
  rewrite getUsagePercentage_eq, current_idempotent, monthlyLimit_current.
  unfold read, used. cbn [fst]. now rewrite monthlyLimit_current.
Qed.

(** X5. For a positive limit, [getUsageStatus] reports [critical] from 95%
    of the limit on, [warning] from 80% up to there and [healthy] below,
    with the calls counted, what remains of the limit (never negative) and
    the limit itself. *)
Theorem usage_status_by_share_of_limit (now : Clock) (s : ApiUsageTracker.t) :
  0 < monthlyLimit s ->
  let report := fst (getUsageStatus now s) in
  ApiUsageStatus.status report
  = (if 95 * monthlyLimit s <=? 100 * used now s then critical
     else if 80 * monthlyLimit s <=? 100 * used now s then warning
     else healthy)
  /\ ApiUsageStatus.used report = used now s
  /\ ApiUsageStatus.limit report = monthlyLimit s
  /\ ApiUsageStatus.remaining report = Z.max 0 (monthlyLimit s - used now s)
  /\ 0 <= ApiUsageStatus.remaining report.
Proof.
  intros Hl report. subst report. rewrite getUsageStatus_eq. cbv zeta.
  cbn [ApiUsageStatus.status ApiUsageStatus.used ApiUsageStatus.limit
       ApiUsageStatus.remaining].
  rewrite critical_reached, warning_reached by assumption.
  repeat split. lia.
Qed.

Lemma usage_status_by_share_of_limit_witness :
  0 < monthlyLimit (trackerWith 850 10)
  /\ ApiUsageStatus.status (fst (getUsageStatus november (trackerWith 850 10)))
     = warning.
Proof.
  assert (H : 0 < monthlyLimit (trackerWith 850 10)) by reflexivity.
  split; [exact H|].
  exact (proj1 (usage_status_by_share_of_limit november (trackerWith 850 10) H)).
Defined.

(** X6. For a positive limit, [shouldLimitTracking] is true exactly when the
    reported status is [critical]; a quota that is used up is critical; and
    [canMakeRequest] is true exactly when something remains. *)
Theorem limiting_matches_critical_status (now : Clock) (s : ApiUsageTracker.t) :
  0 < monthlyLimit s ->
  (fst (shouldLimitTracking now s) = true <->
   ApiUsageStatus.status (fst (getUsageStatus now s)) = critical)
  /\ (fst (canMakeRequest now s) = false -> fst (shouldLimitTracking now s) = true)
  /\ (fst (canMakeRequest now s) = true <-> 0 < fst (getRemainingRequests now s)).
Proof.
  intros Hl.
  rewrite getUsageStatus_eq. cbv zeta. cbn [ApiUsageStatus.status].
  rewrite shouldLimitTracking_eq, canMakeRequest_eq, getRemainingRequests_eq.
  cbn [fst]. fold (used now s).
  rewrite !critical_reached, warning_reached by assumption.
  split; [|split].
  - destruct (95 * monthlyLimit s <=? 100 * used now s); [tauto|].
    destruct (80 * monthlyLimit s <=? 100 * used now s); split; discriminate.
  - rewrite Z.ltb_ge, Z.leb_le. lia.
  - rewrite Z.ltb_lt. lia.
Qed.

Lemma limiting_matches_critical_status_witness :
  0 < monthlyLimit exhaustedTracker
  /\ fst (shouldLimitTracking november exhaustedTracker) = true.
Proof.
  assert (H : 0 < monthlyLimit exhaustedTracker) by reflexivity.
  split; [exact H|].
  exact (proj1 (proj2 (limiting_matches_critical_status november exhaustedTracker H))
               eq_refl).
Defined.

(** X7. The constructor's [loadUsage] always leaves a state of the clock's
    month and year with the configured limit: a stored record of this month
    is kept as it is, and a record of another month, a missing file and an
    unreadable file all give the zero state of [resetUsage]. *)
Theorem loadUsage_starts_in_the_current_month
        (limit : Z) (file : StoredFile) (now : Clock) (before : ApiUsageTracker.t) :
  let loaded := snd (loadUsage limit file now before) in
  ~ stale now loaded
  /\ monthlyLimit loaded = limit
  /\ match file with
     | Stored data =>
         (UsageData.month data = getMonth now
          /\ UsageData.year data = getFullYear now -> usage loaded = data)
         /\ (UsageData.month data <> getMonth now
             \/ UsageData.year data <> getFullYear now ->
             loaded = fresh now loaded)
     | Missing | Unreadable => loaded = fresh now loaded
     end.
Proof.
  intros loaded. subst loaded. destruct file as [| |data]; unfold loadUsage.
  - unfold bind. cbn [resetUsage modify].
    rewrite rollover_current by (unfold stale; simpl; tauto).
    cbn [snd]. unfold stale, fresh. simpl. tauto.
  - cbn [resetUsage modify snd]. unfold stale, fresh. simpl. tauto.
  - fold (current now (ApiUsageTracker.mk limit data)).
    split; [apply not_stale_current|]. split; [apply monthlyLimit_current|].
    split.
    + intros [Hm Hy]. rewrite current_not_stale; [reflexivity|].
      unfold stale. simpl. tauto.
    + intros Hs. unfold current. rewrite rollover_stale by exact Hs. reflexivity.
Qed.

End QuotaThresholds.

(** ** Patterns *)

Section Patterns.

Import Regex.

Lemma matches_void_inv (s : string) : ~ matches Void s.
Proof. intros H. remember Void as r. destruct H; discriminate. Qed.

Lemma matches_eps_inv (s : string) : matches Eps s -> s = "".
Proof. intros H. remember Eps as r. destruct H; try discriminate. reflexivity. Qed.

Lemma matches_class_inv (p : ascii -> bool) (s : string) :
  matches (Class p) s -> exists c, s = String c "" /\ p c = true.
Proof.
  intros H. remember (Class p) as r eqn:E. destruct H; try discriminate.
  inversion E; subst. eauto.
Qed.

Lemma matches_cat_inv (r1 r2 : re) (s : string) :
  matches (Cat r1 r2) s ->
  exists s1 s2, s = s1 ++ s2 /\ matches r1 s1 /\ matches r2 s2.
Proof.
  intros H. remember (Cat r1 r2) as r eqn:E. destruct H; try discriminate.
  inversion E; subst. eauto.
Qed.

Lemma matches_alt_inv (r1 r2 : re) (s : string) :
  matches (Alt r1 r2) s -> matches r1 s \/ matches r2 s.
Proof.
  intros H. remember (Alt r1 r2) as r eqn:E.
  destruct H; try discriminate; inversion E; subst; tauto.
Qed.

Lemma append_empty (s1 s2 : string) : s1 ++ s2 = "" -> s1 = "" /\ s2 = "".
Proof. destruct s1; simpl; [tauto | discriminate]. Qed.

Lemma nullable_matches (r : re) : nullable r = true <-> matches r "".
Proof.
  induction r as [| |p|r1 IH1 r2 IH2|r1 IH1 r2 IH2]; simpl.
  - split; [discriminate | intros H; now apply matches_void_inv in H].
  - split; [constructor | reflexivity].
  - split; [discriminate|].
    intros H. apply matches_class_inv in H. destruct H as (c & H & _). discriminate.
  - rewrite andb_true_iff, IH1, IH2. split.
    + intros [H1 H2]. change "" with ("" ++ ""). now constructor.
    + intros H. apply matches_cat_inv in H. destruct H as (s1 & s2 & E & H1 & H2).
      symmetry in E. apply append_empty in E. destruct E; subst. tauto.
  - rewrite orb_true_iff, IH1, IH2. split.
    + intros [H | H]; [now apply matches_alt_l | now apply matches_alt_r].
    + apply matches_alt_inv.
Qed.

Lemma deriv_matches (r : re) (c : ascii) (s : string) :
  matches (deriv c r) s <-> matches r (String c s).
Proof.
  revert s. induction r as [| |p|r1 IH1 r2 IH2|r1 IH1 r2 IH2]; intros s; simpl.
  - split; intros H; now apply matches_void_inv in H.
  - split; intros H; [now apply matches_void_inv in H|].
    apply matches_eps_inv in H. discriminate.
  - destruct (p c) eqn:E; split; intros H.
    + apply matches_eps_inv in H. subst. now constructor.
    + apply matches_class_inv in H. destruct H as (c' & H & _).
      inversion H; subst. constructor.
    + now apply matches_void_inv in H.
    + apply matches_class_inv in H. destruct H as (c' & H & Hp).
      inversion H; subst. congruence.
  - assert (Hcat : matches (Cat (deriv c r1) r2) s ->
                   matches (Cat r1 r2) (String c s)).
    { intros H. apply matches_cat_inv in H. destruct H as (s1 & s2 & E & H1 & H2).
      subst. apply IH1 in H1.
      change (String c (s1 ++ s2)) with (String c s1 ++ s2). now constructor. }
    assert (Hinv : matches (Cat r1 r2) (String c s) ->
                   matches (Cat (deriv c r1) r2) s
                   \/ (matches r1 "" /\ matches r2 (String c s))).
    { intros H. apply matches_cat_inv in H. destruct H as (s1 & s2 & E & H1 & H2).
      destruct s1 as [|c1 s1]; simpl in E.
      - right. subst. tauto.
      - inversion E; subst. left. constructor; [now apply IH1 | exact H2]. }
    destruct (nullable r1) eqn:E.
    + split.
      * intros H. apply matches_alt_inv in H. destruct H as [H | H]; [now apply Hcat|].
        change (String c s) with ("" ++ String c s). constructor.
        -- now apply nullable_matches.
        -- now apply IH2.
      * intros H. destruct (Hinv H) as [H1 | [_ H2]].
        -- now apply matches_alt_l.
        -- apply matches_alt_r. now apply IH2.
    + split; [exact Hcat|].
      intros H. destruct (Hinv H) as [H1 | [H1 _]]; [exact H1|].
      apply nullable_matches in H1. congruence.
  - split; intros H; apply matches_alt_inv in H; destruct H as [H | H].
    + apply matches_alt_l. now apply IH1.
    + apply matches_alt_r. now apply IH2.
    + apply matches_alt_l. now apply IH1.
    + apply matches_alt_r. now apply IH2.
Qed.

(** [test] decides membership in the pattern's language. *)
Lemma test_matches (r : re) (s : string) : test r s = true <-> matches r s.
Proof.
  revert r. induction s as [|c s IH]; intros r; simpl.
  - apply nullable_matches.
  - rewrite IH. apply deriv_matches.
Qed.



Lemma length_append (s1 s2 : string) :
  String.length (s1 ++ s2) = (String.length s1 + String.length s2)%nat.
Proof. induction s1 as [|c s1 IH]; simpl; [reflexivity | now rewrite IH]. Qed.

Lemma append_assoc (s1 s2 s3 : string) : (s1 ++ s2) ++ s3 = s1 ++ s2 ++ s3.
Proof. induction s1 as [|c s1 IH]; simpl; [reflexivity | now rewrite IH]. Qed.

Lemma append_empty_r (s : string) : s ++ "" = s.
Proof. induction s as [|c s IH]; simpl; [reflexivity | now rewrite IH]. Qed.

Lemma allOf_append (p : ascii -> bool) (s1 s2 : string) :
  allOf p (s1 ++ s2) <-> allOf p s1 /\ allOf p s2.
Proof. induction s1 as [|c s1 IH]; simpl; [tauto | rewrite IH; tauto]. Qed.

Lemma split_at (m : nat) (s : string) :
  (m <= String.length s)%nat ->
  exists s1 s2, s = s1 ++ s2 /\ String.length s1 = m.
Proof.
  revert s. induction m as [|m IH]; intros s H.
  - exists "", s. split; reflexivity.
  - destruct s as [|c s]; simpl in H; [lia|].
    destruct (IH s) as (s1 & s2 & E & L); [lia|].
    exists (String c s1), s2. simpl. split; congruence.
Qed.

Lemma matches_times (p : ascii -> bool) (n : nat) (s : string) :
  matches (times n (Class p)) s <-> String.length s = n /\ allOf p s.
Proof.
  revert s. induction n as [|n IH]; intros s; simpl.
  - split.
    + intros H. apply matches_eps_inv in H. subst. simpl. tauto.
    + intros [H _]. destruct s; [constructor | discriminate].
  - split.
    + intros H. apply matches_cat_inv in H. destruct H as (s1 & s2 & E & H1 & H2).
      apply matches_class_inv in H1. destruct H1 as (c & -> & Hp).
      apply IH in H2. subst. simpl. intuition.
    + intros [L A]. destruct s as [|c s]; [discriminate|].
      simpl in L, A. change (String c s) with (String c "" ++ s).
      constructor; [constructor; tauto|]. apply IH. split; [lia | tauto].
Qed.

Lemma matches_upto (p : ascii -> bool) (n : nat) (s : string) :
  matches (upto n (Class p)) s <-> (String.length s <= n)%nat /\ allOf p s.
Proof.
  revert s. induction n as [|n IH]; intros s; simpl.
  - split.
    + intros H. apply matches_eps_inv in H. subst. simpl. split; [lia | exact I].
    + intros [H _]. destruct s; [constructor | simpl in H; lia].
  - unfold opt. split.
    + intros H. apply matches_alt_inv in H. destruct H as [H | H].
      * apply matches_eps_inv in H. subst. simpl. split; [lia | exact I].
      * apply matches_cat_inv in H. destruct H as (s1 & s2 & E & H1 & H2).
        apply matches_class_inv in H1. destruct H1 as (c & -> & Hp).
        apply IH in H2. subst. simpl. split; [lia | tauto].
    + intros [L A]. destruct s as [|c s]; [apply matches_alt_l; constructor|].
      simpl in L, A. apply matches_alt_r.
      change (String c s) with (String c "" ++ s).
      constructor; [constructor; tauto|]. apply IH. split; [lia | tauto].
Qed.

Lemma matches_range (p : ascii -> bool) (m n : nat) (s : string) :
  (m <= n)%nat -> matches (range m n (Class p)) s <-> run p m n s.
Proof.
  intros Hmn. unfold range, run. split.
  - intros H. apply matches_cat_inv in H. destruct H as (s1 & s2 & E & H1 & H2).
    apply matches_times in H1. apply matches_upto in H2. subst.
    rewrite length_append, allOf_append. split; [lia | tauto].
  - intros [L A]. destruct (split_at m s) as (s1 & s2 & E & L1); [lia|].
    subst s. rewrite length_append in L. apply allOf_append in A.
    constructor; [apply matches_times | apply matches_upto]; split; (lia || tauto).
Qed.

Lemma matches_opt_class (p : ascii -> bool) (s : string) :
  matches (opt (Class p)) s <-> run p 0 1 s.
Proof.
  unfold opt, run. split.
  - intros H. apply matches_alt_inv in H. destruct H as [H | H].
    + apply matches_eps_inv in H. subst. simpl. split; [lia | exact I].
    + apply matches_class_inv in H. destruct H as (c & -> & Hp).
      simpl. split; [lia | tauto].
  - intros [L A]. destruct s as [|c [|c' s]]; simpl in L, A.
    + apply matches_alt_l. constructor.
    + apply matches_alt_r. constructor. tauto.
    + lia.
Qed.

End Patterns.

(** ** What the two identifier patterns accept *)

Section Classification.

Import FlightService.

Lemma lit_N_accepts (c : ascii) :
  Ascii.eqb (Js.upperChar c) (Js.upperChar "N") = true
  <-> c = "N"%char \/ c = "n"%char.
Proof.
  each_char c; vm_compute; split;
    solve [ discriminate | intros [H | H]; discriminate H | auto ].
Qed.

Lemma lit_hyphen_accepts (c : ascii) :
  Ascii.eqb (Js.upperChar c) (Js.upperChar "-") = true <-> c = "-"%char.
Proof.
  each_char c; vm_compute; split; solve [ discriminate | auto ].
Qed.

Lemma isFlightNumber_shape (s : string) :
  isFlightNumber s = true <-> flightNumberShape s.
Proof.
  unfold isFlightNumber, flightNumberPattern, flightNumberShape,
    Regex.letter, Regex.digit.
  rewrite test_matches. split.
  - intros H. apply matches_cat_inv in H. destruct H as (s1 & s23 & E & H1 & H).
    apply matches_cat_inv in H. destruct H as (s2 & s3 & E' & H2 & H3).
    apply matches_range in H1; [|lia]. apply matches_range in H2; [|lia].
    apply matches_opt_class in H3. subst. now exists s1, s2, s3.
  - intros (s1 & s2 & s3 & E & H1 & H2 & H3). subst.
    constructor; [apply matches_range; [lia | exact H1]|].
    constructor; [apply matches_range; [lia | exact H2]|].
    now apply matches_opt_class.
Qed.

Lemma isTailNumber_shape (s : string) :
  isTailNumber s = true <-> internationalTailShape s \/ usTailShape s.
Proof.
  unfold isTailNumber, internationalTailPattern, usTailPattern,
    internationalTailShape, usTailShape, Regex.letter, Regex.digit, Regex.alnum,
    Regex.lit.
  rewrite orb_true_iff, !test_matches.
  assert (Hor : forall A B C D : Prop, (A <-> C) -> (B <-> D) -> (A \/ B <-> C \/ D))
    by tauto.
  apply Hor; split.
  - intros H. apply matches_cat_inv in H. destruct H as (s1 & s23 & E & H1 & H).
    apply matches_cat_inv in H. destruct H as (s2 & s3 & E' & H2 & H3).
    apply matches_class_inv in H1. destruct H1 as (c & -> & Hc).
    apply matches_opt_class in H2. apply matches_range in H3; [|lia].
    subst. exists c, s2, s3. repeat split; try assumption; try apply H3.
    destruct H2 as [L A]. destruct s2 as [|h [|h' s2]]; simpl in L, A.
    + now left.
    + right. destruct A as [A _]. apply lit_hyphen_accepts in A. now subst.
    + lia.
  - intros (c & s2 & s3 & E & Hc & Hh & H3). subst.
    change (String c (s2 ++ s3)) with (String c "" ++ s2 ++ s3).
    constructor; [now constructor|]. constructor.
    + apply matches_opt_class. destruct Hh as [-> | ->]; split; simpl; try lia; auto.
    + apply matches_range; [lia | exact H3].
  - intros H. apply matches_cat_inv in H. destruct H as (s1 & s23 & E & H1 & H).
    apply matches_cat_inv in H. destruct H as (s2 & s3 & E' & H2 & H3).
    apply matches_class_inv in H1. destruct H1 as (c & -> & Hc).
    apply matches_range in H2; [|lia]. apply matches_range in H3; [|lia].
    apply lit_N_accepts in Hc. subst. now exists c, s2, s3.
  - intros (c & s2 & s3 & E & Hc & H2 & H3). subst.
    change (String c (s2 ++ s3)) with (String c "" ++ s2 ++ s3).
    constructor; [constructor; now apply lit_N_accepts|].
    constructor; (apply matches_range; [lia | assumption]).
Qed.

(** X8. [isFlightNumber] accepts exactly a carrier code of 2 or 3 letters
    followed by 1 to 4 digits and at most one more letter, letters in either
    case. *)
Theorem isFlightNumber_accepts_carrier_number_suffix (s : string) :
  isFlightNumber s = true <-> flightNumberShape s.
Proof. exact (isFlightNumber_shape s). Qed.

(** X9. [isTailNumber] accepts exactly a letter, an optional hyphen and 1 to
    5 letters or digits, or an N followed by 1 to 5 digits and at most 2
    letters, letters in either case. *)
Theorem isTailNumber_accepts_registrations (s : string) :
  isTailNumber s = true <-> internationalTailShape s \/ usTailShape s.
Proof. exact (isTailNumber_shape s). Qed.

Lemma allOf_weaken (p q : ascii -> bool) (s : string) :
  (forall c, p c = true -> q c = true) -> allOf p s -> allOf q s.
Proof. intros H. induction s as [|c s IH]; simpl; [tauto | intuition]. Qed.

Lemma letter_is_alnum c : Js.isLetter c = true -> isAlnum c = true.
Proof. unfold isAlnum. intros ->. reflexivity. Qed.

Lemma digit_is_alnum c : Js.isDigit c = true -> isAlnum c = true.
Proof. unfold isAlnum. intros ->. apply orb_true_r. Qed.

Lemma clean_alnum (s : string) : allOf isAlnum s -> cleanIdentifier s = s.
Proof.
  unfold cleanIdentifier. induction s as [|c s IH]; simpl; [reflexivity|].
  intros [Hc Hs]. unfold isAlnum in Hc. rewrite Hc. now rewrite IH.
Qed.

Lemma cleanIdentifier_alnum (s : string) : allOf isAlnum (cleanIdentifier s).
Proof.
  unfold cleanIdentifier. induction s as [|c s IH]; simpl; [exact I|].
  destruct (Js.isLetter c || Js.isDigit c)%bool eqn:E; simpl; tauto.
Qed.

Lemma cleanIdentifier_length (s : string) :
  Js.length (cleanIdentifier s) <= Js.length s.
Proof.
  unfold Js.length, cleanIdentifier. apply inj_le.
  induction s as [|c s IH]; simpl; [lia|].
  destruct (Js.isLetter c || Js.isDigit c)%bool; simpl; lia.
Qed.

(** X10. Cleaning keeps letters and digits only, never lengthens the
    identifier, and cleaning a second time changes nothing. *)
Theorem cleanIdentifier_idempotent (identifier : string) :
  allOf isAlnum (cleanIdentifier identifier)
  /\ Js.length (cleanIdentifier identifier) <= Js.length identifier
  /\ cleanIdentifier (cleanIdentifier identifier) = cleanIdentifier identifier.
Proof.
  split; [apply cleanIdentifier_alnum|]. split; [apply cleanIdentifier_length|].
  apply clean_alnum, cleanIdentifier_alnum.
Qed.

(** X11. Whatever [isFlightNumber] accepts has 3 to 8 characters, all
    letters or digits, so that cleaning leaves it as it is; whatever
    [isTailNumber] accepts has 2 to 8 characters. *)
Theorem accepted_identifiers_are_short (s : string) :
  (isFlightNumber s = true ->
   3 <= Js.length s <= 8 /\ cleanIdentifier s = s)
  /\ (isTailNumber s = true -> 2 <= Js.length s <= 8).
Proof.
  unfold Js.length. split.
  - intros H. apply isFlightNumber_shape in H.
    destruct H as (s1 & s2 & s3 & -> & [L1 A1] & [L2 A2] & [L3 A3]).
    rewrite !length_append. split; [lia|].
    apply clean_alnum. rewrite !allOf_append.
    repeat split;
      [ apply (allOf_weaken Js.isLetter) | apply (allOf_weaken Js.isDigit)
      | apply (allOf_weaken Js.isLetter) ];
      auto using letter_is_alnum, digit_is_alnum.
  - intros H. apply isTailNumber_shape in H.
    destruct H as [(c & s2 & s3 & -> & _ & Hh & [L3 _])
                  | (c & s2 & s3 & -> & _ & [L2 _] & [L3 _])].
    + simpl. rewrite length_append. destruct Hh as [-> | ->]; simpl; lia.
    + simpl. rewrite length_append. lia.
Qed.

(** X12. The patterns overlap on every short flight number: what
    [isFlightNumber] accepts in 6 characters or fewer, [isTailNumber]
    accepts too. *)
Theorem short_flight_numbers_are_tail_numbers (s : string) :
  isFlightNumber s = true -> Js.length s <= 6 -> isTailNumber s = true.
Proof.
  intros H L. apply isFlightNumber_shape in H.
  destruct H as (s1 & s2 & s3 & -> & [L1 A1] & [L2 A2] & [L3 A3]).
  apply isTailNumber_shape. left.
  unfold Js.length in L. rewrite !length_append in L.
  destruct s1 as [|c s1]; simpl in L1; [lia|].
  exists c, "", (s1 ++ s2 ++ s3). simpl in A1 |- *.
  split; [reflexivity|]. split; [tauto|]. split; [now left|].
  unfold run. rewrite !length_append, !allOf_append. simpl in L.
  split; [lia|].
  repeat split;
    [ apply (allOf_weaken Js.isLetter) | apply (allOf_weaken Js.isDigit)
    | apply (allOf_weaken Js.isLetter) ];
    try tauto; auto using letter_is_alnum, digit_is_alnum.
Qed.

Lemma short_flight_numbers_are_tail_numbers_witness :
  isFlightNumber "UA400" = true /\ Js.length "UA400" <= 6
  /\ isTailNumber "UA400" = true.
Proof.
  assert (H1 : isFlightNumber "UA400" = true) by reflexivity.
  assert (H2 : Js.length "UA400" <= 6) by (vm_compute; discriminate).
  split; [exact H1|]. split; [exact H2|].
  exact (short_flight_numbers_are_tail_numbers "UA400" H1 H2).
Defined.







End Classification.

(** ** Lookups: what they cost and how they end *)

Section Lookups.

Import FlightService.

Lemma stale_sameMonth now later s : sameMonth now later -> stale later s <-> stale now s.
Proof. unfold sameMonth, stale. intros [-> ->]. tauto. Qed.

Lemma used_sameMonth now later s : sameMonth now later -> used later s = used now s.
Proof.
  intros H. unfold used.
  destruct (stale_sameMonth now later s H) as [Hto Hfrom].
  destruct (current_cases now s) as [[Hs ->] | [Hs ->]];
    destruct (current_cases later s) as [[Hs' ->] | [Hs' ->]];
    try reflexivity; exfalso; tauto.
Qed.

Lemma used_current now s : used now (current now s) = used now s.
Proof. unfold used. now rewrite current_idempotent. Qed.

(** X14. Punctuation does not matter: when the cleaned identifier has two
    characters or more, [getFlightData] does for the identifier what it does
    for its cleaned form, result and quota state alike. *)
Theorem getFlightData_ignores_punctuation
        (net : Network) (identifier : string) (now later : Clock)
        (s : ApiUsageTracker.t) :
  2 <= Js.length (cleanIdentifier identifier) ->
  getFlightData net identifier now later s
  = getFlightData net (cleanIdentifier identifier) now later s.
Proof.
  intros H. assert (Hl := cleanIdentifier_length identifier).
  rewrite !getFlightData_long by lia.
  now rewrite (clean_alnum _ (cleanIdentifier_alnum identifier)).
Qed.

Lemma getFlightData_ignores_punctuation_witness :
  2 <= Js.length (cleanIdentifier "UA-400")
  /\ getFlightData ua400Everywhere "UA-400" november novemberLater healthyTracker
     = getFlightData ua400Everywhere "UA400" november novemberLater healthyTracker.
Proof.
  assert (H : 2 <= Js.length (cleanIdentifier "UA-400")) by (vm_compute; discriminate).
  split; [exact H|].
  exact (getFlightData_ignores_punctuation
           ua400Everywhere "UA-400" november novemberLater healthyTracker H).
Defined.

(** X15. Within a month, a lookup is counted as one call exactly when the
    provider answers its request: a lookup that resolves, with a flight or
    with none, and a lookup that fails on an answer without a flights array
    both raise the count by one; every other rejection leaves the count as
    it was. *)
Theorem answered_lookups_cost_one_call
        (net : Network) (identifier : string) (now later : Clock)
        (s : ApiUsageTracker.t) :
  sameMonth now later ->
  let result := getFlightData net identifier now later s in
  match fst result with
  | Resolved _ | Rejected TypeError => used later (snd result) = used now s + 1
  | Rejected _ => used later (snd result) = used now s
  end.
Proof.
  intros Hm result. subst result.
  destruct (Z.lt_ge_cases (Js.length identifier) 2) as [Hshort | Hlong].
  - rewrite getFlightData_short by assumption. cbn [fst snd].
    now apply used_sameMonth.
  - rewrite getFlightData_long by assumption. cbv zeta.
    assert (Hcur : used later (current now s) = used now s).
    { rewrite (used_sameMonth now later) by assumption. apply used_current. }
    destruct (used now s <? ApiUsageTracker.monthlyLimit s); [|exact Hcur].
    destruct (isFlightNumber _ || isTailNumber _)%bool; [|exact Hcur].
    rewrite complete_eq.
    destruct (answer net _ _) as [flights | | status]; cbn [fst snd].
    + now rewrite used_charged, Hcur.
    + now rewrite used_charged, Hcur.
    + destruct (rethrow_transport status) as [E | [E | E]]; rewrite E; exact Hcur.
Qed.

Lemma answered_lookups_cost_one_call_witness :
  sameMonth november novemberLater
  /\ used novemberLater
          (snd (getFlightData noFlights "UA400" november novemberLater healthyTracker))
     = 11
  /\ fst (getFlightData noFlightsArray "UA400" november novemberLater healthyTracker)
     = Rejected TypeError
  /\ used novemberLater
          (snd (getFlightData noFlightsArray "UA400" november novemberLater
                              healthyTracker))
     = 11
  /\ fst (getFlightData unreachable "UA400" november novemberLater healthyTracker)
     = Rejected (TransportError None)
  /\ used novemberLater
          (snd (getFlightData unreachable "UA400" november novemberLater healthyTracker))
     = 10.
Proof.
  assert (H : sameMonth november novemberLater) by (split; reflexivity).
  split; [exact H|].
  split; [exact (answered_lookups_cost_one_call
                   noFlights "UA400" november novemberLater healthyTracker H)|].
  split; [reflexivity|].
  split; [exact (answered_lookups_cost_one_call
                   noFlightsArray "UA400" november novemberLater healthyTracker H)|].
  split; [reflexivity|].
  exact (answered_lookups_cost_one_call
           unreachable "UA400" november novemberLater healthyTracker H).
Defined.

(** X16. An identifier that passes the checks ends as the provider's last
    answer says: no record gives null, a list gives its first record
    normalized under the search type, status 401 gives
    [AuthenticationFailed], 429 gives [RateLimitExceeded], and any other
    failure is passed on with its status. *)
Theorem getFlightData_follows_the_provider
        (net : Network) (identifier : string) (now later : Clock)
        (s : ApiUsageTracker.t) :
  2 <= Js.length identifier ->
  fst (ApiUsageTracker.canMakeRequest now s) = true ->
  let clean := cleanIdentifier identifier in
  (isFlightNumber clean || isTailNumber clean)%bool = true ->
  let k := searchTypeOf clean in
  let result := fst (getFlightData net identifier now later s) in
  (answer net k clean = Fulfilled [] -> result = Resolved None)
  /\ (forall flight rest,
        answer net k clean = Fulfilled (flight :: rest) ->
        result = Resolved (Some (normalizeFlightData flight (searchTypeName k))))
  /\ (answer net k clean = Failed (Some 401) -> result = Rejected AuthenticationFailed)
  /\ (answer net k clean = Failed (Some 429) -> result = Rejected RateLimitExceeded)
  /\ (forall status,
        answer net k clean = Failed status ->
        status <> Some 401 -> status <> Some 429 ->
        result = Rejected (TransportError status)).
Proof.
  intros Hlen Hq clean Hacc k result. subst result.
  rewrite fst_canMakeRequest in Hq.
  rewrite getFlightData_long by assumption. rewrite Hq. cbv zeta.
  fold clean. rewrite Hacc. fold k. rewrite complete_eq.
  repeat split.
  - intros ->. reflexivity.
  - intros flight rest ->. reflexivity.
  - intros ->. reflexivity.
  - intros ->. reflexivity.
  - intros status -> H1 H2. cbn [fst]. now rewrite rethrow_other.
Qed.

Lemma getFlightData_follows_the_provider_witness :
  2 <= Js.length "UA400"
  /\ fst (ApiUsageTracker.canMakeRequest november healthyTracker) = true
  /\ (isFlightNumber (cleanIdentifier "UA400")
      || isTailNumber (cleanIdentifier "UA400"))%bool = true
  /\ fst (getFlightData noFlights "UA400" november novemberLater healthyTracker)
     = Resolved None.
Proof.
  assert (H1 : 2 <= Js.length "UA400") by (vm_compute; discriminate).
  assert (H2 : fst (ApiUsageTracker.canMakeRequest november healthyTracker) = true)
    by reflexivity.
  assert (H3 : (isFlightNumber (cleanIdentifier "UA400")
                || isTailNumber (cleanIdentifier "UA400"))%bool = true)
    by reflexivity.
  split; [exact H1|]. split; [exact H2|]. split; [exact H3|].
  exact (proj1 (getFlightData_follows_the_provider
                  noFlights "UA400" november novemberLater healthyTracker H1 H2 H3)
               eq_refl).
Defined.

End Lookups.

(** ** Status mapping and display names *)

Section Formatting.

Import FlightService.

Lemma lowerChar_idempotent (c : ascii) : Js.lowerChar (Js.lowerChar c) = Js.lowerChar c.
Proof. destruct c as [[] [] [] [] [] [] [] []]; vm_compute; reflexivity. Qed.

Lemma toLowerCase_idempotent (s : string) :
  Js.toLowerCase (Js.toLowerCase s) = Js.toLowerCase s.
Proof.
  induction s as [|c s IH]; simpl; [reflexivity|].
  now rewrite lowerChar_idempotent, IH.
Qed.

(** X17. For a status that is missing, or a word that names no member of
    [Object.prototype], the mapped status is in lower case; 'Completed'
    becomes 'landed', a missing status 'unknown', and such a word outside the
    table is the provider's word in lower case. *)
Theorem mapFlightAwareStatus_is_lower_case (status : option string) :
  plainKey status = true ->
  Js.toLowerCase (mapFlightAwareStatus status) = mapFlightAwareStatus status
  /\ mapFlightAwareStatus (Some "Completed") = "landed"
  /\ mapFlightAwareStatus None = "unknown"
  /\ (forall word,
        status = Some word ->
        ~ In word ["Scheduled"; "Active"; "Completed"; "Cancelled"; "Diverted"] ->
        mapFlightAwareStatus status = Js.toLowerCase word).
Proof.
  intros _.
  split; [|split; [reflexivity|split; [reflexivity|]]].
  - unfold mapFlightAwareStatus.
    destruct (lookup (Js.orDefault status "") _) as [v|] eqn:E; cbn [Js.orDefault].
    + cbn [lookup] in E.
      repeat match type of E with
             | (if ?b then _ else _) = _ => destruct b
             end;
        inversion E; reflexivity.
    + apply toLowerCase_idempotent.
  - intros word -> Hout. unfold mapFlightAwareStatus. cbn [Js.orDefault lookup].
    repeat match goal with
           | |- context [(word =? ?k)%string] =>
               destruct (String.eqb_spec word k) as [-> | _];
               [exfalso; apply Hout; simpl; tauto|]
           end.
    reflexivity.
Qed.

Lemma mapFlightAwareStatus_is_lower_case_witness :
  plainKey (Some "En Route") = true
  /\ Js.toLowerCase (mapFlightAwareStatus (Some "En Route"))
     = mapFlightAwareStatus (Some "En Route")
  /\ mapFlightAwareStatus (Some "En Route") = "en route".
Proof.
  assert (H : plainKey (Some "En Route") = true) by reflexivity.
  split; [exact H|].
  split; [exact (proj1 (mapFlightAwareStatus_is_lower_case (Some "En Route") H))
         | reflexivity].
Defined.

(** X18. The update message names the flight as the lookup message does
    when no searched identifier is given, between two asterisks at its
    start; a private flight with a registration is named by it whatever was
    searched. *)
Theorem update_message_uses_the_display_title
        (flight : NormalizedFlight.t) (updateType : string)
        (searchedIdentifier : option string) :
  (exists sentence,
     getUpdateMessage flight updateType
     = "*" ++ displayTitle flight None ++ "*" ++ sentence)
  /\ (isPrivateAviation flight = true ->
      Js.truthy (registrationOf flight) = true ->
      Some (displayTitle flight searchedIdentifier) = registrationOf flight)
  /\ (isPrivateAviation flight = false ->
      displayTitle flight searchedIdentifier = "Flight " ++ flightNumberOf flight).
Proof.
  split; [|split].
  - unfold getUpdateMessage, displayTitle. rewrite andb_false_r. cbv zeta.
    destruct (updateType =? "active")%string;
      [exists " is now airborne!"; reflexivity|].
    destruct (updateType =? "landed")%string;
      [exists " has landed safely."; reflexivity|].
    destruct (updateType =? "cancelled")%string;
      [exists " has been cancelled."; reflexivity|].
    destruct (updateType =? "diverted")%string;
      [exists " has been diverted."; reflexivity|].
    destruct (updateType =? "incident")%string;
      [exists " has reported an incident."; reflexivity|].
    exists (" status update: "
            ++ getStatusEmoji (NormalizedFlight.flight_status flight) ++ " "
            ++ formatStatus (NormalizedFlight.flight_status flight)).
    reflexivity.
  - intros Hp Hr. unfold displayTitle. rewrite Hp, Hr. simpl.
    destruct (registrationOf flight); [reflexivity | discriminate].
  - intros Hp. unfold displayTitle. rewrite Hp. reflexivity.
Qed.

End Formatting.

(** ** Starting and stopping tracking *)

Section Tracking.

Import FlightMonitor.

Lemma get_set_same k v m : get k (set k v m) = Some v.
Proof.
  induction m as [|[k' v'] rest IH]; simpl.
  - now rewrite String.eqb_refl.
  - destruct (k =? k')%string eqn:E; simpl; rewrite E; [reflexivity | exact IH].
Qed.

Lemma get_set_other key k v m : k <> key -> get key (set k v m) = get key m.
Proof.
  intros Hne. induction m as [|[k' v'] rest IH]; simpl.
  - destruct (key =? k)%string eqn:E; [|reflexivity].
    apply String.eqb_eq in E. congruence.
  - destruct (k =? k')%string eqn:E; simpl.
    + apply String.eqb_eq in E. subst k'.
      destruct (key =? k)%string eqn:E'; [|reflexivity].
      apply String.eqb_eq in E'. congruence.
    + now rewrite IH.
Qed.

Lemma keys_set k v m :
  map fst (set k v m)
  = if has k m then map fst m else (map fst m ++ [k])%list.
Proof.
  unfold has. induction m as [|[k' v'] rest IH]; simpl; [reflexivity|].
  destruct (k =? k')%string eqn:E; simpl.
  - apply String.eqb_eq in E. now subst.
  - rewrite IH. destruct (get k rest); reflexivity.
Qed.

Lemma has_In k m : has k m = true <-> In k (map fst m).
Proof.
  unfold has. destruct (get k m) eqn:E.
  - split; [|reflexivity]. intros _. apply get_In in E.
    change k with (fst (k, t)). now apply in_map.
  - apply get_None_notin in E. split; [discriminate | tauto].
Qed.

(** X19. [startTracking] is an upsert by key: afterwards the pair is
    tracked with the new record as baseline, a zero update count and the
    clock's time; every other key keeps its entry; the count of tracked
    flights grows by one for a new key and stays for a key tracked before;
    keys stay distinct. *)
Theorem startTracking_upserts
        (info : TrackingInfo.t) (now : Clock) (m : Registry) :
  let k := keyOf (TrackingInfo.identifier info) (TrackingInfo.channelId info) in
  let after := startTracking info now m in
  get k after = Some (newlyTracked info now)
  /\ isTracking (TrackingInfo.identifier info) (TrackingInfo.channelId info) after
     = true
  /\ (forall other, other <> k -> get other after = get other m)
  /\ getTrackedFlightsCount after
     = (if isTracking (TrackingInfo.identifier info) (TrackingInfo.channelId info) m
        then getTrackedFlightsCount m else getTrackedFlightsCount m + 1)
  /\ (NoDup (map fst m) -> NoDup (map fst after)).
Proof.
  intros k after. subst after. unfold startTracking, isTracking. fold k.
  fold (newlyTracked info now).
  split; [apply get_set_same|]. split; [unfold has; now rewrite get_set_same|].
  split; [intros other H; now apply get_set_other|].
  assert (Hkeys := keys_set k (newlyTracked info now) m).
  split.
  - unfold getTrackedFlightsCount.
    rewrite <- (length_map fst (set _ _ _)), Hkeys, <- (length_map fst m).
    destruct (has k m); [reflexivity|].
    rewrite length_app. simpl. lia.
  - intros Hnd. rewrite Hkeys. destruct (has k m) eqn:E; [exact Hnd|].
    apply NoDup_app; [exact Hnd | repeat constructor; simpl; tauto|].
    intros x Hx [<- | []]. apply has_In in Hx. congruence.
Qed.

Lemma get_delete_other key k m : k <> key -> get key (delete k m) = get key m.
Proof.
  intros Hne. induction m as [|[k' v'] rest IH]; simpl; [reflexivity|].
  destruct (k =? k')%string eqn:E; simpl.
  - apply String.eqb_eq in E. subst k'.
    destruct (key =? k)%string eqn:E'; [|reflexivity].
    apply String.eqb_eq in E'. congruence.
  - now rewrite IH.
Qed.

Lemma delete_absent k m : has k m = false -> delete k m = m.
Proof.
  unfold has. induction m as [|[k' v'] rest IH]; simpl; [reflexivity|].
  destruct (k =? k')%string; [discriminate|].
  intros H. now rewrite IH.
Qed.

Lemma length_delete k m :
  Z.of_nat (List.length (delete k m))
  = Z.of_nat (List.length m) - (if has k m then 1 else 0).
Proof.
  unfold has. induction m as [|[k' v'] rest IH]; simpl List.length; simpl get;
    [reflexivity|].
  simpl delete. destruct (k =? k')%string.
  - lia.
  - simpl List.length. destruct (get k rest); lia.
Qed.

Lemma delete_NoDup k m :
  NoDup (map fst m) -> NoDup (map fst (delete k m)) /\ has k (delete k m) = false.
Proof.
  induction m as [|[k' v'] rest IH]; simpl; [intros; split; [constructor | reflexivity]|].
  intros Hnd. inversion Hnd as [|? ? Hnotin Hnd']; subst.
  destruct (k =? k')%string eqn:E.
  - apply String.eqb_eq in E. subst k'. split; [exact Hnd'|].
    destruct (has k rest) eqn:Hh; [|reflexivity].
    apply has_In in Hh. contradiction.
  - destruct (IH Hnd') as [IH1 IH2]. split.
    + simpl. constructor; [|exact IH1].
      intros Hin. apply Hnotin. apply has_In in Hin. apply has_In.
      unfold has in *. destruct (String.eqb_spec k k') as [->|Hne].
      * discriminate.
      * now rewrite get_delete_other in Hin.
    + unfold has in *. simpl. now rewrite E.
Qed.

(** X20. [stopTracking] answers whether the pair was tracked and removes
    its entry: the count drops by one exactly when it answers true, a pair
    that was not tracked leaves the registry as it was, every other key
    keeps its entry, and with distinct keys the pair is no longer tracked
    afterwards. *)
Theorem stopTracking_removes_the_entry
        (identifier channelId : string) (m : Registry) :
  let k := keyOf identifier channelId in
  let removed := fst (stopTracking identifier channelId m) in
  let after := snd (stopTracking identifier channelId m) in
  removed = isTracking identifier channelId m
  /\ getTrackedFlightsCount after
     = getTrackedFlightsCount m - (if removed then 1 else 0)
  /\ (removed = false -> after = m)
  /\ (forall other, other <> k -> get other after = get other m)
  /\ (NoDup (map fst m) ->
      NoDup (map fst after) /\ isTracking identifier channelId after = false).
Proof.
  intros k removed after. subst removed after. unfold stopTracking, isTracking.
  fold k. cbn [fst snd].
  split; [reflexivity|]. split; [apply length_delete|].
  split; [apply delete_absent|].
  split; [intros other H; now apply get_delete_other|].
  apply delete_NoDup.
Qed.

Lemma allOf_no_underscore a b : ~ underscoreFree (a ++ String "_" b).
Proof.
  unfold underscoreFree. induction a as [|c a IH]; simpl.
  - intros [H _]. discriminate.
  - tauto.
Qed.

Lemma keyOf_injective (identifier1 channelId1 identifier2 channelId2 : string) :
  underscoreFree channelId1 -> underscoreFree channelId2 ->
  keyOf identifier1 channelId1 = keyOf identifier2 channelId2 ->
  identifier1 = identifier2 /\ channelId1 = channelId2.
Proof.
  unfold keyOf. intros H1 H2. revert identifier2.
  induction identifier1 as [|c id1 IH]; intros [|c2 id2]; simpl; intros E.
  - inversion E. tauto.
  - inversion E; subst. exfalso. now apply (allOf_no_underscore id2 channelId2).
  - inversion E; subst. exfalso. now apply (allOf_no_underscore id1 channelId1).
  - inversion E; subst. destruct (IH id2) as [-> ->]; [assumption|]. tauto.
Qed.

(** X21. Registry keys tell tracked pairs apart as long as channel ids hold
    no underscore: two pairs with the same key are then the same pair.  With
    an underscore in a channel id two pairs can share a key. *)
Theorem keyOf_separates_pairs (identifier1 channelId1 identifier2 channelId2 : string) :
  (underscoreFree channelId1 -> underscoreFree channelId2 ->
   keyOf identifier1 channelId1 = keyOf identifier2 channelId2 ->
   identifier1 = identifier2 /\ channelId1 = channelId2)
  /\ keyOf "A_B" "C" = keyOf "A" "B_C".
Proof.
  split; [apply keyOf_injective | reflexivity].
Qed.

(** X22. Tracked pairs are independent: for channel ids without underscore,
    starting or stopping the tracking of one pair leaves every other pair
    tracked or not as it was. *)
Theorem tracking_is_per_pair
        (info : TrackingInfo.t) (now : Clock)
        (identifier channelId : string) (m : Registry) :
  underscoreFree (TrackingInfo.channelId info) ->
  underscoreFree channelId ->
  (TrackingInfo.identifier info, TrackingInfo.channelId info)
  <> (identifier, channelId) ->
  isTracking identifier channelId (startTracking info now m)
  = isTracking identifier channelId m
  /\ isTracking identifier channelId
       (snd (stopTracking (TrackingInfo.identifier info)
                          (TrackingInfo.channelId info) m))
     = isTracking identifier channelId m.
Proof.
  intros H1 H2 Hne.
  assert (Hk : keyOf (TrackingInfo.identifier info) (TrackingInfo.channelId info)
               <> keyOf identifier channelId).
  { intros E.
    destruct (keyOf_injective _ _ _ _ H1 H2 E) as [Ei Ec].
    apply Hne. now rewrite Ei, Ec. }
  unfold isTracking, has, startTracking, stopTracking. cbn [snd].
  now rewrite get_set_other, get_delete_other.
Qed.

Lemma tracking_is_per_pair_witness :
  underscoreFree "C1" /\ underscoreFree "C2"
  /\ isTracking "UA400" "C2"
       (snd (stopTracking "UA400" "C1" sampleRegistry))
     = true.
Proof.
  assert (H1 : underscoreFree "C1") by (vm_compute; auto).
  assert (H2 : underscoreFree "C2") by (vm_compute; auto).
  assert (H3 : ("UA400", "C1") <> ("UA400", "C2")) by discriminate.
  split; [exact H1|]. split; [exact H2|].
  exact (eq_trans
           (proj2 (tracking_is_per_pair
                     (TrackingInfo.mk (TrackedFlight.flight ua400Scheduled)
                                      "C1" "U1" "UA400")
                     november "UA400" "C2" sampleRegistry H1 H2 H3))
           eq_refl).
Defined.

End Tracking.

(** ** One check: when it notifies *)

Section Notification.

Import FlightMonitor.

Lemma sendFlightUpdate_posts channelId flight updateType later s :
  exists warn,
    sendFlightUpdate channelId flight updateType later s
    = ([mkPost channelId (FlightService.getUpdateMessage flight updateType) warn],
       current later s).
Proof.
  unfold sendFlightUpdate, ApiUsageTracker.bind, FlightService.getApiUsageStatus.
  assert (Hs := snd_getUsageStatus later s).
  destruct (ApiUsageTracker.getUsageStatus later s) as [report s1].
  simpl in Hs. subst s1. unfold ApiUsageTracker.ret. eauto.
Qed.

(** [resume] on a found flight, with the decision of [shouldSendUpdate]
    made. *)
Lemma resume_found_eq (flight : NormalizedFlight.t) (t : TrackedFlight.t)
      (later : Clock) (s : ApiUsageTracker.t) :
  let status := NormalizedFlight.flight_status flight in
  let send := FlightService.shouldSendUpdate status (TrackedFlight.lastStatus t) in
  exists warn,
    resume (Resolved (Some flight)) t later s
    = (TrackedFlight.mk flight (TrackedFlight.channelId t) (TrackedFlight.userId t)
         (TrackedFlight.identifier t)
         (if send then status else TrackedFlight.lastStatus t)
         (getTime later)
         (if send then TrackedFlight.updateCount t + 1 else TrackedFlight.updateCount t)
         (if (send && (status =? "landed")%string)%bool then true
          else TrackedFlight.hasLanded t),
       if send
       then [mkPost (TrackedFlight.channelId t)
                    (FlightService.getUpdateMessage flight status) warn]
       else [],
       if send then current later s else s).
Proof.
  intros status send. unfold resume, ApiUsageTracker.bind. fold status. fold send.
  destruct send.
  - destruct (sendFlightUpdate_posts (TrackedFlight.channelId t) flight status later s)
      as [warn ->].
    exists warn. reflexivity.
  - exists false. reflexivity.
Qed.

(** X23. A check that finds the flight posts one message to the entry's
    channel when [shouldSendUpdate] says so and nothing otherwise; the
    update count grows by the number of messages; [hasLanded] is never
    cleared and is set when a change to 'landed' is notified; and the last
    status becomes the new one exactly when a message is posted. *)
Theorem found_check_notifies_on_trigger
        (flight : NormalizedFlight.t) (t : TrackedFlight.t) (later : Clock)
        (s : ApiUsageTracker.t) :
  let status := NormalizedFlight.flight_status flight in
  let send := FlightService.shouldSendUpdate status (TrackedFlight.lastStatus t) in
  let after := fst (fst (resume (Resolved (Some flight)) t later s)) in
  let posts := snd (fst (resume (Resolved (Some flight)) t later s)) in
  map channel posts = (if send then [TrackedFlight.channelId t] else [])
  /\ map text posts
     = (if send then [FlightService.getUpdateMessage flight status] else [])
  /\ TrackedFlight.updateCount after
     = TrackedFlight.updateCount t + Z.of_nat (List.length posts)
  /\ TrackedFlight.lastStatus after
     = (if send then status else TrackedFlight.lastStatus t)
  /\ TrackedFlight.hasLanded after
     = (TrackedFlight.hasLanded t || (send && (status =? "landed")%string))%bool
  /\ evolves t after.
Proof.
  intros status send after posts. subst after posts.
  destruct (resume_found_eq flight t later s) as [warn ->].
  fold status. fold send. cbn [fst snd].
  unfold evolves.
  destruct send; cbn [map channel text List.length TrackedFlight.updateCount
                      TrackedFlight.lastStatus TrackedFlight.hasLanded
                      TrackedFlight.identifier TrackedFlight.channelId
                      TrackedFlight.userId andb Z.of_nat Pos.of_succ_nat].
  - repeat split; try reflexivity; try lia.
    + destruct (status =? "landed")%string, (TrackedFlight.hasLanded t); reflexivity.
    + destruct (status =? "landed")%string; auto.
  - repeat split; try reflexivity; try lia.
    + now rewrite orb_false_r.
    + tauto.
Qed.

(** X24. A status is notified once: when a check has found a flight, a
    second check that finds the same record posts nothing and leaves the
    update count, the last status and [hasLanded] as the first check left
    them. *)
Theorem same_status_is_not_notified_again
        (flight : NormalizedFlight.t) (t : TrackedFlight.t) (later later' : Clock)
        (s s' : ApiUsageTracker.t) :
  let first := fst (fst (resume (Resolved (Some flight)) t later s)) in
  let second := resume (Resolved (Some flight)) first later' s' in
  snd (fst second) = []
  /\ TrackedFlight.updateCount (fst (fst second)) = TrackedFlight.updateCount first
  /\ TrackedFlight.lastStatus (fst (fst second)) = TrackedFlight.lastStatus first
  /\ TrackedFlight.hasLanded (fst (fst second)) = TrackedFlight.hasLanded first.
Proof.
  intros first second. subst second first.
  destruct (resume_found_eq flight t later s) as [warn ->]. cbn [fst].
  set (status := NormalizedFlight.flight_status flight).
  set (send := FlightService.shouldSendUpdate status (TrackedFlight.lastStatus t)).
  set (first := TrackedFlight.mk _ _ _ _ _ _ _ _).
  destruct (resume_found_eq flight first later' s') as [warn' ->].
  fold status.
  assert (Hno : FlightService.shouldSendUpdate status (TrackedFlight.lastStatus first)
                = false).
  { subst first. cbn [TrackedFlight.lastStatus]. destruct send eqn:E.
    - unfold FlightService.shouldSendUpdate. now rewrite String.eqb_refl.
    - exact E. }
  rewrite Hno. cbn [fst snd andb]. repeat split.
Qed.

End Notification.

(** ** What a poll cycle keeps *)

Section CycleInvariants.

Import FlightMonitor.

Lemma settle_step (w : World) (p : Pending) (rest : list Pending) (o : Outcome) :
  settle w (p :: rest) o
  = let got := fetchOf w p (usageTracker o) in
    let res := resume (fst got) (tracking p) (answered w (key p)) (snd got) in
    settle w rest
      (mkOutcome (mutate (key p) (fst (fst res)) (trackedFlights o)) (snd res)
                 (fetched o) (posted o ++ snd (fst res))).
Proof.
  cbn [settle]. unfold fetchOf.
  destruct (checked p) as [e | [k clean]].
  - cbv zeta. cbn [fst snd].
    destruct (resume _ (tracking p) _ (usageTracker o)) as [[t' posts] s2].
    reflexivity.
  - destruct (FlightService.complete _ k clean _ (usageTracker o)) as [r s1].
    cbv zeta. cbn [fst snd].
    destruct (resume r (tracking p) _ s1) as [[t' posts] s2]. reflexivity.
Qed.

Lemma launch_entries (flightsToCheck : list (string * TrackedFlight.t))
      (now : Clock) (s : ApiUsageTracker.t) :
  map entryOf (fst (launch flightsToCheck now s)) = flightsToCheck.
Proof.
  revert s. induction flightsToCheck as [|[k v] rest IH]; intros s; [reflexivity|].
  simpl. unfold ApiUsageTracker.bind.
  destruct (FlightService.prepare _ now s) as [c s1].
  specialize (IH s1). destruct (launch rest now s1) as [pending s2].
  simpl in *. now rewrite IH.
Qed.

Lemma map_key_entryOf (pending : list Pending) :
  map key pending = map fst (map entryOf pending).
Proof. rewrite map_map. reflexivity. Qed.

(** A cycle, whether it passes the quota gate or not. *)
Lemma checkFlightUpdates_cases (w : World) (currentTime : Clock)
      (m : Registry) (s : ApiUsageTracker.t) :
  (fst (FlightService.canMakeRequest currentTime s) = false
   /\ checkFlightUpdates w currentTime m s = mkOutcome m (current currentTime s) [] [])
  \/ (fst (FlightService.canMakeRequest currentTime s) = true
      /\ exists pending,
           map entryOf pending
           = limit (fst (FlightService.shouldLimitTracking currentTime s))
                   (dueForCheck currentTime m)
           /\ checkFlightUpdates w currentTime m s
              = settle w pending
                  (mkOutcome (filter (fun entry => negb (completed (snd entry))) m)
                             (snd (launch (map entryOf pending) currentTime
                                          (current currentTime s)))
                             (map key pending) [])).
Proof.
  unfold checkFlightUpdates.
  assert (Hlim := shouldLimitTracking_after_canMakeRequest currentTime s).
  assert (Hcan : snd (FlightService.canMakeRequest currentTime s)
                 = current currentTime s).
  { unfold FlightService.canMakeRequest. now rewrite canMakeRequest_eq. }
  destruct (FlightService.canMakeRequest currentTime s) as [allowed s1].
  cbn [fst snd] in *. subst s1. destruct allowed; cbn [negb].
  - right. split; [reflexivity|].
    assert (Hs2 : snd (FlightService.shouldLimitTracking
                         currentTime (current currentTime s))
                  = current currentTime s).
    { unfold FlightService.shouldLimitTracking. rewrite shouldLimitTracking_eq.
      cbn [snd]. apply current_idempotent. }
    destruct (FlightService.shouldLimitTracking currentTime (current currentTime s))
      as [b s2].
    cbn [fst snd] in *. subst s2. subst b.
    assert (Hk := scan_kept currentTime m).
    assert (Hc := scan_flightsToCheck currentTime m).
    destruct (scan currentTime m) as [kept flightsToCheck].
    cbn [fst snd] in Hk, Hc. subst kept flightsToCheck.
    set (chosen := limit _ _).
    assert (He := launch_entries chosen currentTime (current currentTime s)).
    destruct (launch chosen currentTime (current currentTime s)) as [pending s3] eqn:El.
    cbn [fst] in He. exists pending. split; [exact He|].
    rewrite He, El, map_key_entryOf, He. reflexivity.
  - left. split; reflexivity.
Qed.

Lemma limit_incl (b : bool) (l : list (string * TrackedFlight.t)) e :
  In e (limit b l) -> In e l.
Proof.
  unfold limit. destruct (b && _)%bool; [|trivial].
  intros H. apply firstn_incl in H.
  eapply Permutation_in; [apply sortByLastUpdatedDesc_perm | exact H].
Qed.

Lemma limit_keys_NoDup (b : bool) (l : list (string * TrackedFlight.t)) :
  NoDup (map fst l) -> NoDup (map fst (limit b l)).
Proof.
  intros H. unfold limit. destruct (b && _)%bool; [|exact H].
  rewrite <- firstn_map. apply NoDup_firstn.
  eapply Permutation_NoDup; [|exact H].
  apply Permutation_map. symmetry. apply sortByLastUpdatedDesc_perm.
Qed.

Lemma limit_length (l : list (string * TrackedFlight.t)) :
  (List.length (limit true l) <= 2)%nat.
Proof.
  unfold limit. cbn [andb].
  destruct (2 <? Z.of_nat (List.length l)) eqn:E.
  - apply firstn_le_length.
  - apply Z.ltb_ge in E. lia.
Qed.

Lemma get_mutate_same k v v0 m : get k m = Some v0 -> get k (mutate k v m) = Some v.
Proof.
  induction m as [|[k' v'] rest IH]; simpl; [discriminate|].
  destruct (k =? k')%string eqn:E; simpl; rewrite E; [reflexivity | exact IH].
Qed.

Lemma mutate_same k v m : get k m = Some v -> mutate k v m = m.
Proof.
  induction m as [|[k' v'] rest IH]; simpl; [reflexivity|].
  destruct (k =? k')%string eqn:E.
  - intros [= ->]. reflexivity.
  - intros H. now rewrite IH.
Qed.

Lemma evolves_refl t : evolves t t.
Proof. unfold evolves. repeat split; (reflexivity || lia || tauto). Qed.

Lemma resume_evolves r t later s : evolves t (fst (fst (resume r t later s))).
Proof.
  destruct r as [[flight|]|e]; try apply evolves_refl.
  destruct (resume_found_eq flight t later s) as [warn ->]. cbn [fst].
  unfold evolves. cbn.
  destruct (FlightService.shouldSendUpdate _ _); cbn;
    repeat split; try lia; try tauto.
  destruct (_ =? _)%string; tauto.
Qed.


Lemma inStep_tail p rest m t' :
  inStep (p :: rest) m -> inStep rest (mutate (key p) t' m).
Proof.
  intros [Hnd Hget]. simpl in Hnd. inversion Hnd as [|? ? Hnotin Hnd']; subst.
  split; [exact Hnd'|]. intros q Hq.
  rewrite get_mutate_other; [apply Hget; now right|].
  intros E. apply Hnotin. rewrite E. now apply in_map.
Qed.

Lemma settle_evolves (w : World) (pending : list Pending) (o : Outcome) :
  inStep pending (trackedFlights o) ->
  forall k t, get k (trackedFlights o) = Some t ->
  exists t', get k (trackedFlights (settle w pending o)) = Some t' /\ evolves t t'.
Proof.
  revert o. induction pending as [|p rest IH]; intros o Hin k t Hget.
  - exists t. split; [exact Hget | apply evolves_refl].
  - rewrite settle_step. cbv zeta.
    set (res := resume _ (tracking p) _ _).
    assert (Hrest := inStep_tail p rest (trackedFlights o) (fst (fst res)) Hin).
    destruct Hin as [Hnd Hp]. simpl in Hnd.
    inversion Hnd as [|? ? Hnotin Hnd']; subst.
    destruct (String.eqb_spec (key p) k) as [E | E].
    + subst k. rewrite settle_untouched by exact Hnotin. cbn [trackedFlights].
      rewrite (get_mutate_same _ _ t) by exact Hget.
      exists (fst (fst res)). split; [reflexivity|].
      rewrite (Hp p (or_introl eq_refl)) in Hget. inversion Hget; subst.
      apply resume_evolves.
    + apply IH; [exact Hrest|]. cbn [trackedFlights].
      now rewrite get_mutate_other.
Qed.


Lemma pending_inStep (currentTime : Clock) (m : Registry) (b : bool)
      (pending : list Pending) :
  NoDup (map fst m) ->
  map entryOf pending = limit b (dueForCheck currentTime m) ->
  inStep pending (filter (fun entry => negb (completed (snd entry))) m).
Proof.
  intros Hnd He. split.
  - rewrite map_key_entryOf, He. apply limit_keys_NoDup.
    now apply NoDup_keys_filter.
  - intros p Hp.
    assert (Hin : In (entryOf p) (limit b (dueForCheck currentTime m))).
    { rewrite <- He. now apply in_map. }
    apply limit_incl in Hin.
    now destruct (dueForCheck_get currentTime m (key p) (tracking p) Hnd Hin).
Qed.

(** X25. A poll cycle never adds or reorders entries: the keys afterwards
    are the keys before without those of completed flights, or all of them
    when the quota gate stops the cycle; distinct keys stay distinct; and an
    entry that is neither completed nor due is left exactly as it was. *)
Theorem cycle_only_drops_completed_entries
        (w : World) (currentTime : Clock) (m : Registry) (s : ApiUsageTracker.t) :
  let after := trackedFlights (checkFlightUpdates w currentTime m s) in
  map fst after
  = (if fst (FlightService.canMakeRequest currentTime s)
     then map fst (filter (fun entry => negb (completed (snd entry))) m)
     else map fst m)
  /\ incl (map fst after) (map fst m)
  /\ (NoDup (map fst m) -> NoDup (map fst after))
  /\ (NoDup (map fst m) ->
      forall k t, get k m = Some t -> completed t = false ->
                  isDue currentTime t = false -> get k after = Some t).
Proof.
  intros after. subst after.
  destruct (checkFlightUpdates_cases w currentTime m s)
    as [[Hq ->] | [Hq (pending & He & ->)]]; rewrite Hq; cbn [trackedFlights].
  - split; [reflexivity|]. split; [apply incl_refl|]. split; [trivial|].
    intros _ k t Hget _ _. exact Hget.
  - rewrite settle_keys. cbn [trackedFlights].
    split; [reflexivity|]. split; [|split].
    + intros k Hk. apply in_map_iff in Hk. destruct Hk as [e [<- He']].
      apply filter_In in He'. now apply in_map.
    + apply NoDup_keys_filter.
    + intros Hnd k t Hget Hc Hd.
      rewrite settle_untouched; cbn [trackedFlights].
      * rewrite (get_filter (fun t => negb (completed t)) k t m Hnd Hget).
        now rewrite Hc.
      * rewrite map_key_entryOf, He. intros Hin.
        apply in_map_iff in Hin. destruct Hin as [[k' t'] [Hk Hin]].
        simpl in Hk. subst k'. apply limit_incl in Hin.
        assert (Hdue := Hin). apply filter_In in Hdue. destruct Hdue as [_ Hdue].
        destruct (dueForCheck_get currentTime m k t' Hnd Hin) as [Hg _].
        simpl in Hdue. congruence.
Qed.

(** X26. Through a poll cycle an entry that stays keeps its identifier,
    channel and user; its update count grows by one at most; and
    [hasLanded], once true, stays true. *)
Theorem cycle_moves_entries_forward
        (w : World) (currentTime : Clock) (m : Registry) (s : ApiUsageTracker.t)
        (k : string) (before after : TrackedFlight.t) :
  NoDup (map fst m) ->
  get k m = Some before ->
  get k (trackedFlights (checkFlightUpdates w currentTime m s)) = Some after ->
  evolves before after.
Proof.
  intros Hnd Hb Ha.
  destruct (checkFlightUpdates_cases w currentTime m s)
    as [[Hq E] | [Hq (pending & He & E)]]; rewrite E in Ha; cbn [trackedFlights] in Ha.
  - rewrite Hb in Ha. inversion Ha; subst. apply evolves_refl.
  - set (kept := filter (fun entry => negb (completed (snd entry))) m) in *.
    assert (Hstep := pending_inStep currentTime m _ pending Hnd He). fold kept in Hstep.
    assert (Hkept : get k kept = Some before).
    { subst kept.
      rewrite (get_filter (fun t => negb (completed t)) k before m Hnd Hb).
      destruct (negb (completed before)) eqn:Hc; [reflexivity|].
      exfalso. apply get_In in Ha.
      assert (Hin : In k (map fst (trackedFlights
                 (settle w pending
                    (mkOutcome (filter (fun entry => negb (completed (snd entry))) m)
                       (snd (launch (map entryOf pending) currentTime
                                    (current currentTime s)))
                       (map key pending) []))))).
      { change k with (fst (k, after)). now apply in_map. }
      rewrite settle_keys in Hin. cbn [trackedFlights] in Hin.
      apply has_In in Hin. unfold has in Hin.
      rewrite (get_filter (fun t => negb (completed t)) k before m Hnd Hb) in Hin.
      rewrite Hc in Hin. discriminate. }
    destruct (settle_evolves w pending
                (mkOutcome kept
                   (snd (launch (map entryOf pending) currentTime
                                (current currentTime s)))
                   (map key pending) [])
                Hstep k before Hkept) as (t' & Ht' & Hev).
    rewrite Ht' in Ha. inversion Ha; subst. exact Hev.
Qed.

Lemma cycle_moves_entries_forward_witness :
  NoDup (map fst sampleRegistry)
  /\ get "UA400_C1" sampleRegistry
     = Some (tracked "UA400" "C1" "Scheduled" (minutesBefore 10 november) 0 false)
  /\ exists after,
       get "UA400_C1"
           (trackedFlights (checkFlightUpdates sampleWorld november sampleRegistry
                                               healthyTracker)) = Some after
       /\ TrackedFlight.updateCount after <= 1.
Proof.
  assert (H2 : get "UA400_C1" sampleRegistry
               = Some (tracked "UA400" "C1" "Scheduled"
                               (minutesBefore 10 november) 0 false)) by reflexivity.
  split; [exact sampleRegistry_NoDup|]. split; [exact H2|].
  eexists. split; [reflexivity|].
  exact (proj2 (proj1 (proj2 (proj2 (proj2
           (cycle_moves_entries_forward sampleWorld november sampleRegistry
              healthyTracker "UA400_C1" _ _ sampleRegistry_NoDup H2 eq_refl)))))).
Defined.

Lemma answer_noRecords (w : World) (k0 : string) (k : SearchType) (clean : string) :
  noRecords w ->
  match answer (provider w k0) k clean with
  | Fulfilled (_ :: _) => False
  | _ => True
  end.
Proof.
  intros H. unfold answer.
  assert (H1 := H k0 ("/flights/" ++ clean)).
  assert (H2 := H k0 ("/aircraft/" ++ clean ++ "/flights")).
  destruct k.
  - exact H1.
  - destruct (provider w k0 ("/flights/" ++ clean)) as [flights | | [z|]];
      try exact H1.
    destruct (Z.eq_dec z 400) as [-> | Hz]; [exact H2|].
    destruct z as [|q|q]; try exact I.
    do 10 (try (destruct q as [q|q|]; try exact I; try congruence)).
Qed.

Lemma fetchOf_noRecords (w : World) (p : Pending) (s : ApiUsageTracker.t) :
  noRecords w ->
  forall flight, fst (fetchOf w p s) <> Resolved (Some flight).
Proof.
  intros H flight. unfold fetchOf. destruct (checked p) as [e | [k clean]].
  - discriminate.
  - rewrite complete_eq. assert (Ha := answer_noRecords w (key p) k clean H).
    destruct (answer _ k clean) as [[|f fs] | | status]; try discriminate.
    contradiction.
Qed.

Lemma settle_noRecords (w : World) (pending : list Pending) (o : Outcome) :
  noRecords w ->
  inStep pending (trackedFlights o) ->
  trackedFlights (settle w pending o) = trackedFlights o
  /\ posted (settle w pending o) = posted o.
Proof.
  intros Hw. revert o. induction pending as [|p rest IH]; intros o Hin.
  - split; reflexivity.
  - rewrite settle_step. cbv zeta.
    assert (Hno := fetchOf_noRecords w p (usageTracker o) Hw).
    destruct (fetchOf w p (usageTracker o)) as [r s1]. cbn [fst snd] in *.
    assert (Hres : fst (resume r (tracking p) (answered w (key p)) s1)
                   = (tracking p, [])).
    { destruct r as [[flight|]|e]; [|reflexivity|reflexivity].
      exfalso. now apply (Hno flight). }
    assert (Hrest := inStep_tail p rest (trackedFlights o) (tracking p) Hin).
    destruct Hin as [_ Hget].
    rewrite Hres. cbn [fst snd].
    rewrite (mutate_same _ _ _ (Hget p (or_introl eq_refl))) in *.
    rewrite app_nil_r.
    match goal with |- context [settle w rest ?o'] =>
      destruct (IH o' Hrest) as [-> ->] end.
    split; reflexivity.
Qed.

(** X28. A cycle in which the provider has no record, because every request
    fails or is answered with no flight, changes no entry and posts nothing:
    the registry afterwards is the registry before without the completed
    flights. *)
Theorem cycle_without_records_changes_nothing
        (w : World) (currentTime : Clock) (m : Registry) (s : ApiUsageTracker.t) :
  NoDup (map fst m) ->
  fst (FlightService.canMakeRequest currentTime s) = true ->
  noRecords w ->
  trackedFlights (checkFlightUpdates w currentTime m s)
  = filter (fun entry => negb (completed (snd entry))) m
  /\ posted (checkFlightUpdates w currentTime m s) = [].
Proof.
  intros Hnd Hq Hw.
  destruct (checkFlightUpdates_cases w currentTime m s)
    as [[Hq' _] | [_ (pending & He & ->)]]; [congruence|].
  apply settle_noRecords; [exact Hw|].
  cbn [trackedFlights]. exact (pending_inStep currentTime m _ pending Hnd He).
Qed.

Lemma cycle_without_records_changes_nothing_witness :
  NoDup (map fst sampleRegistry)
  /\ fst (FlightService.canMakeRequest november healthyTracker) = true
  /\ noRecords (mkWorld (fun _ => unreachable) (fun _ => novemberLater))
  /\ posted (checkFlightUpdates (mkWorld (fun _ => unreachable) (fun _ => novemberLater))
                                november sampleRegistry healthyTracker) = [].
Proof.
  assert (H2 : fst (FlightService.canMakeRequest november healthyTracker) = true)
    by reflexivity.
  assert (H3 : noRecords (mkWorld (fun _ => unreachable) (fun _ => novemberLater)))
    by (intros k path; exact I).
  split; [exact sampleRegistry_NoDup|]. split; [exact H2|]. split; [exact H3|].
  exact (proj2 (cycle_without_records_changes_nothing
                  (mkWorld (fun _ => unreachable) (fun _ => novemberLater))
                  november sampleRegistry healthyTracker
                  sampleRegistry_NoDup H2 H3)).
Defined.

Lemma prepare_used identifier now s :
  used now (snd (FlightService.prepare identifier now s)) = used now s.
Proof.
  destruct (Z.lt_ge_cases (Js.length identifier) 2) as [Hshort | Hlong].
  - unfold FlightService.prepare.
    replace (Js.length identifier <? 2) with true by (symmetry; now apply Z.ltb_lt).
    rewrite orb_true_r. reflexivity.
  - rewrite (prepare_long identifier now s Hlong). apply used_current.
Qed.

Lemma launch_used flightsToCheck now s :
  used now (snd (launch flightsToCheck now s)) = used now s.
Proof.
  revert s. induction flightsToCheck as [|[k v] rest IH]; intros s; [reflexivity|].
  simpl. unfold ApiUsageTracker.bind.
  assert (Hp := prepare_used (TrackedFlight.identifier v) now s).
  destruct (FlightService.prepare _ now s) as [c s1]. simpl in Hp.
  specialize (IH s1). destruct (launch rest now s1) as [pending s2].
  simpl in *. congruence.
Qed.

Lemma fetchOf_used (w : World) (p : Pending) (now : Clock) (s : ApiUsageTracker.t) :
  sameMonth now (answered w (key p)) ->
  used now s <= used now (snd (fetchOf w p s)) <= used now s + 1.
Proof.
  intros Hm. unfold fetchOf. destruct (checked p) as [e | [k clean]].
  - simpl. lia.
  - rewrite complete_eq. destruct (answer _ k clean) as [flights | | status];
      cbn [snd]; try lia;
      rewrite <- (used_sameMonth now (answered w (key p))
                    (charged _ _ (answered w (key p)) s) Hm);
      rewrite used_charged, (used_sameMonth now _ s Hm); lia.
Qed.

Lemma resume_used r t (now later : Clock) s :
  sameMonth now later -> used now (snd (resume r t later s)) = used now s.
Proof.
  intros Hm. destruct r as [[flight|]|e]; try reflexivity.
  destruct (resume_found_eq flight t later s) as [warn ->]. cbn [snd].
  destruct (FlightService.shouldSendUpdate _ _); [|reflexivity].
  rewrite <- (used_sameMonth now later (current later s) Hm), used_current.
  now apply used_sameMonth.
Qed.

Lemma settle_used (w : World) (now : Clock) (pending : list Pending) (o : Outcome) :
  withinMonth now w ->
  used now (usageTracker o) <= used now (usageTracker (settle w pending o))
  <= used now (usageTracker o) + Z.of_nat (List.length pending).
Proof.
  intros Hw. revert o. induction pending as [|p rest IH]; intros o.
  - simpl. lia.
  - rewrite settle_step. cbv zeta.
    assert (Hf := fetchOf_used w p now (usageTracker o) (Hw (key p))).
    assert (Hr := resume_used (fst (fetchOf w p (usageTracker o))) (tracking p)
                    now (answered w (key p)) (snd (fetchOf w p (usageTracker o)))
                    (Hw (key p))).
    match goal with |- context [settle w rest ?o'] => specialize (IH o') end.
    cbn [usageTracker] in IH. simpl List.length. lia.
Qed.

(** X30. While the month lasts, a poll cycle counts at most one call per
    entry it checks and never lowers the count; with [shouldLimitTracking()]
    true it checks two entries at most. *)
Theorem cycle_spends_one_call_per_check_at_most
        (w : World) (currentTime : Clock) (m : Registry) (s : ApiUsageTracker.t) :
  withinMonth currentTime w ->
  let after := checkFlightUpdates w currentTime m s in
  used currentTime s <= used currentTime (usageTracker after)
  <= used currentTime s + Z.of_nat (List.length (fetched after))
  /\ (fst (FlightService.shouldLimitTracking currentTime s) = true ->
      (List.length (fetched after) <= 2)%nat).
Proof.
  intros Hw after. subst after.
  destruct (checkFlightUpdates_cases w currentTime m s)
    as [[Hq ->] | [Hq (pending & He & ->)]].
  - cbn [usageTracker fetched List.length]. rewrite used_current.
    split; [lia | intros _; lia].
  - rewrite settle_fetched. cbn [fetched]. rewrite length_map. split.
    + match goal with |- context [settle w pending ?o] =>
        assert (Hs := settle_used w currentTime pending o Hw) end.
      cbn [usageTracker] in Hs.
      rewrite launch_used, used_current in Hs. exact Hs.
    + intros Hl. rewrite <- (length_map entryOf), He, Hl. apply limit_length.
Qed.

Lemma cycle_spends_one_call_per_check_at_most_witness :
  withinMonth november sampleWorld
  /\ used november (usageTracker (checkFlightUpdates sampleWorld november
                                    sampleRegistry criticalTracker)) <= 962.
Proof.
  assert (H : withinMonth november sampleWorld) by (intros k; split; reflexivity).
  split; [exact H|].
  exact (Z.le_trans _ _ _
           (proj2 (proj1 (cycle_spends_one_call_per_check_at_most
                            sampleWorld november sampleRegistry criticalTracker H)))
           (Z.le_refl 962)).
Defined.

End CycleInvariants.


(** ** What a poll cycle does to the entries it checks *)

Section CycleChecks.

Import FlightMonitor.

Lemma prepare_short identifier now s :
  Js.length identifier < 2 ->
  FlightService.prepare identifier now s = (inl IdentifierTooShort, s).
Proof.
  intros H. unfold FlightService.prepare.
  replace (Js.length identifier <? 2) with true by (symmetry; now apply Z.ltb_lt).
  rewrite orb_true_r. reflexivity.
Qed.

(** Once the rollover check has run, [prepare] leaves the quota state as it
    is and decides as it would have before. *)
Lemma prepare_current identifier now s :
  FlightService.prepare identifier now (current now s)
  = (fst (FlightService.prepare identifier now s), current now s).
Proof.
  destruct (Z.lt_ge_cases (Js.length identifier) 2) as [Hshort | Hlong].
  - now rewrite !prepare_short.
  - rewrite !(prepare_long identifier now _ Hlong).
    now rewrite used_current, monthlyLimit_current, current_idempotent.
Qed.

Lemma launch_current (flightsToCheck : list (string * TrackedFlight.t)) now s :
  launch flightsToCheck now (current now s)
  = (map (pendingOf now s) flightsToCheck, current now s).
Proof.
  induction flightsToCheck as [|[k t] rest IH]; [reflexivity|].
  cbn [launch]. unfold ApiUsageTracker.bind at 1. rewrite prepare_current.
  unfold ApiUsageTracker.bind at 1. rewrite IH. reflexivity.
Qed.

(** A cycle that passes the quota gate, with its pending checks spelled
    out. *)
Lemma checkFlightUpdates_launched (w : World) (currentTime : Clock)
      (m : Registry) (s : ApiUsageTracker.t) :
  fst (FlightService.canMakeRequest currentTime s) = true ->
  let chosen := limit (fst (FlightService.shouldLimitTracking currentTime s))
                      (dueForCheck currentTime m) in
  checkFlightUpdates w currentTime m s
  = settle w (map (pendingOf currentTime s) chosen)
      (mkOutcome (filter (fun entry => negb (completed (snd entry))) m)
                 (current currentTime s) (map fst chosen) []).
Proof.
  intros Hq chosen. unfold checkFlightUpdates.
  assert (Hlim := shouldLimitTracking_after_canMakeRequest currentTime s).
  assert (Hcan : snd (FlightService.canMakeRequest currentTime s)
                 = current currentTime s).
  { unfold FlightService.canMakeRequest. now rewrite canMakeRequest_eq. }
  destruct (FlightService.canMakeRequest currentTime s) as [allowed s1].
  cbn [fst snd] in *. subst s1 allowed. cbn [negb].
  assert (Hs2 : snd (FlightService.shouldLimitTracking
                       currentTime (current currentTime s))
                = current currentTime s).
  { unfold FlightService.shouldLimitTracking. rewrite shouldLimitTracking_eq.
    cbn [snd]. apply current_idempotent. }
  destruct (FlightService.shouldLimitTracking currentTime (current currentTime s))
    as [b s2].
  cbn [fst snd] in *. subst s2 b.
  assert (Hk := scan_kept currentTime m).
  assert (Hc := scan_flightsToCheck currentTime m).
  destruct (scan currentTime m) as [kept flightsToCheck].
  cbn [fst snd] in Hk, Hc. subst kept flightsToCheck. fold chosen.
  rewrite launch_current. reflexivity.
Qed.

Lemma complete_fst_any net k clean later s s' :
  fst (FlightService.complete net k clean later s)
  = fst (FlightService.complete net k clean later s').
Proof.
  rewrite !complete_eq. destruct (answer net k clean); reflexivity.
Qed.

(** The fetch of a pending check settles as [getFlightData] called on the
    entry's identifier at the start of the cycle does. *)
Lemma fetchOf_pendingOf (w : World) now s (k : string) (t : TrackedFlight.t) s' :
  fst (fetchOf w (pendingOf now s (k, t)) s')
  = fst (FlightService.getFlightData (provider w k) (TrackedFlight.identifier t)
           now (answered w k) s).
Proof.
  unfold fetchOf, pendingOf, FlightService.getFlightData. cbn [checked key fst snd].
  destruct (FlightService.prepare (TrackedFlight.identifier t) now s)
    as [[e | [kind clean]] s1]; cbn [fst]; [reflexivity|].
  apply complete_fst_any.
Qed.

Lemma resume_any r t later s s' :
  fst (fst (resume r t later s)) = fst (fst (resume r t later s'))
  /\ map said (snd (fst (resume r t later s)))
     = map said (snd (fst (resume r t later s'))).
Proof.
  destruct r as [[flight|]|e]; try (split; reflexivity).
  destruct (resume_found_eq flight t later s) as [warn ->].
  destruct (resume_found_eq flight t later s') as [warn' ->].
  cbn [fst snd]. split; [reflexivity|].
  destruct (FlightService.shouldSendUpdate _ _); reflexivity.
Qed.

(** One step of [settle] makes of the entry what [checkSingleFlight] makes
    of it, whatever the quota state has become in between. *)
Lemma step_is_checkOf (w : World) now s (k : string) (t : TrackedFlight.t) s1 s2 :
  let res := resume (fst (fetchOf w (pendingOf now s (k, t)) s1)) t (answered w k) s2 in
  fst (fst res) = fst (checkOf w now s k t)
  /\ map said (snd (fst res)) = map said (snd (checkOf w now s k t)).
Proof.
  cbv zeta. rewrite fetchOf_pendingOf. unfold checkOf, checkSingleFlight.
  destruct (FlightService.getFlightData _ _ _ _ _) as [r s3]. cbn [fst].
  apply resume_any.
Qed.

Lemma settle_checks (w : World) now s (l : list (string * TrackedFlight.t))
      (o : Outcome) :
  NoDup (map fst l) ->
  (forall k t, In (k, t) l -> get k (trackedFlights o) = Some t) ->
  (forall k t, In (k, t) l ->
     get k (trackedFlights (settle w (map (pendingOf now s) l) o))
     = Some (fst (checkOf w now s k t)))
  /\ map said (posted (settle w (map (pendingOf now s) l) o))
     = (map said (posted o)
        ++ concat (map (fun entry => map said (snd (checkOf w now s (fst entry)
                                                             (snd entry)))) l))%list.
Proof.
  revert o. induction l as [|[k0 t0] rest IH]; intros o Hnd Hget.
  - split; [intros k t []|]. simpl. now rewrite app_nil_r.
  - cbn [map]. rewrite settle_step. cbv zeta.
    change (key (pendingOf now s (k0, t0))) with k0.
    change (tracking (pendingOf now s (k0, t0))) with t0.
    destruct (step_is_checkOf w now s k0 t0 (usageTracker o)
                (snd (fetchOf w (pendingOf now s (k0, t0)) (usageTracker o))))
      as [Ht Hp].
    cbv zeta in Ht, Hp.
    set (res := resume _ t0 (answered w k0) _) in *.
    simpl in Hnd. inversion Hnd as [|? ? Hnotin Hnd']; subst.
    set (o1 := mkOutcome (mutate k0 (fst (fst res)) (trackedFlights o)) (snd res)
                         (fetched o) (posted o ++ snd (fst res))).
    assert (Hget1 : forall k t, In (k, t) rest -> get k (trackedFlights o1) = Some t).
    { intros k t Hin. subst o1. cbn [trackedFlights].
      rewrite get_mutate_other; [apply Hget; now right|].
      intros E. apply Hnotin. subst k.
      change k0 with (fst (k0, t)). now apply in_map. }
    destruct (IH o1 Hnd' Hget1) as [IHget IHposted]. split.
    + intros k t [E | Hin].
      * inversion E; subst k t.
        rewrite settle_untouched.
        -- subst o1. cbn [trackedFlights].
           rewrite (get_mutate_same _ _ t0) by (apply Hget; now left).
           now rewrite Ht.
        -- rewrite map_map. cbn [key pendingOf]. exact Hnotin.
      * now apply IHget.
    + rewrite IHposted. subst o1. cbn [posted concat map fst snd].
      rewrite map_app, Hp, app_assoc. reflexivity.
Qed.

Lemma chosen_entries (currentTime : Clock) (m : Registry) (b : bool) :
  NoDup (map fst m) ->
  NoDup (map fst (limit b (dueForCheck currentTime m)))
  /\ forall k t, In (k, t) (limit b (dueForCheck currentTime m)) ->
       get k m = Some t
       /\ get k (filter (fun entry => negb (completed (snd entry))) m) = Some t.
Proof.
  intros Hnd. split.
  - apply limit_keys_NoDup. unfold dueForCheck. now apply NoDup_keys_filter.
  - intros k t Hin. apply limit_incl in Hin.
    exact (dueForCheck_get currentTime m k t Hnd Hin).
Qed.

(** The entries a cycle checks end as [checkSingleFlight] leaves them. *)
Lemma checked_entries_end_as_checkOf (w : World) (currentTime : Clock)
      (m : Registry) (s : ApiUsageTracker.t) :
  NoDup (map fst m) ->
  fst (FlightService.canMakeRequest currentTime s) = true ->
  forall k t,
    In k (fetched (checkFlightUpdates w currentTime m s)) ->
    get k m = Some t ->
    get k (trackedFlights (checkFlightUpdates w currentTime m s))
    = Some (fst (checkOf w currentTime s k t)).
Proof.
  intros Hnd Hq k t Hin Hget.
  rewrite (checkFlightUpdates_launched w currentTime m s Hq) in *. cbv zeta in *.
  set (chosen := limit _ _) in *.
  destruct (chosen_entries currentTime m
              (fst (FlightService.shouldLimitTracking currentTime s)) Hnd)
    as [Hcnd Hc]. fold chosen in Hcnd, Hc.
  rewrite settle_fetched in Hin. cbn [fetched] in Hin.
  apply in_map_iff in Hin. destruct Hin as [[k' t'] [Hk Hin]]. simpl in Hk. subst k'.
  assert (t' = t) as -> by (destruct (Hc k t' Hin) as [Hg _]; congruence).
  match goal with |- context [settle w _ ?o] =>
    destruct (settle_checks w currentTime s chosen o Hcnd) as [Hres _] end.
  - intros k1 t1 H1. cbn [trackedFlights]. now apply Hc.
  - now apply Hres.
Qed.


(** C3. In a cycle that passes the quota gate while [shouldLimitTracking()]
    is true, with more than two entries due for a check, [getFlightData] is
    called for exactly two of them, and no entry left out was updated later
    than one that was taken; the entries left out stay as they were, their
    [lastUpdated] included.  With two entries due or fewer, it is called for
    all of them.  Every entry taken ends the cycle as [checkSingleFlight],
    and so the [getFlightData] call it makes on the entry's identifier,
    leaves it. *)
Theorem critical_usage_checks_two_most_recent
        (w : World) (currentTime : Clock) (m : Registry) (s : ApiUsageTracker.t) :
  NoDup (map fst m) ->
  fst (FlightService.canMakeRequest currentTime s) = true ->
  fst (FlightService.shouldLimitTracking currentTime s) = true ->
  let due := dueForCheck currentTime m in
  let after := checkFlightUpdates w currentTime m s in
  ((2 < List.length due)%nat ->
   List.length (fetched after) = 2%nat
   /\ NoDup (fetched after)
   /\ incl (fetched after) (map fst due)
   /\ forall (k : string) (tracking : TrackedFlight.t),
        In (k, tracking) due -> ~ In k (fetched after) ->
        get k (trackedFlights after) = Some tracking
        /\ forall (k' : string) (tracking' : TrackedFlight.t),
             In k' (fetched after) -> get k' m = Some tracking' ->
             TrackedFlight.lastUpdated tracking
             <= TrackedFlight.lastUpdated tracking')
  /\ ((List.length due <= 2)%nat -> fetched after = map fst due)
  /\ (forall (k : string) (tracking : TrackedFlight.t),
        In k (fetched after) -> get k m = Some tracking ->
        get k (trackedFlights after)
        = Some (fst (fst (checkSingleFlight (provider w k) tracking currentTime
                            (answered w k) s)))).
Proof.
  intros Hnd Hq Hlim due after.
  destruct (checkFlightUpdates_allowed w currentTime m s Hq)
    as (pending & s3 & Hkeys & Heq).
  rewrite Hlim in Hkeys, Heq. fold due in Hkeys, Heq.
  assert (Hfetched : fetched after = map fst (limit true due)).
  { subst after. now rewrite Heq, settle_fetched. }
  split.
  - intros Hmany. rewrite (limit_critical due Hmany) in *.
    set (sorted := sortByLastUpdatedDesc due) in *.
    assert (Hperm : Permutation sorted due) by apply sortByLastUpdatedDesc_perm.
    assert (Hsorted : StronglySorted noEarlier sorted)
      by apply sortByLastUpdatedDesc_sorted.
    assert (Hdue_nd : NoDup (map fst due)) by now apply NoDup_keys_filter.
    rewrite Hfetched. split; [|split; [|split]].
    + rewrite length_map. apply firstn_length_le.
      rewrite (Permutation_length Hperm). lia.
    + rewrite <- firstn_map. apply NoDup_firstn.
      eapply Permutation_NoDup; [|exact Hdue_nd].
      apply Permutation_map. now symmetry.
    + intros k Hin. rewrite <- firstn_map in Hin. apply firstn_incl in Hin.
      eapply Permutation_in; [|exact Hin]. now apply Permutation_map.
    + intros k tracking Hin Hout.
      destruct (dueForCheck_get currentTime m k tracking Hnd Hin) as [_ Hkept].
      split.
      * subst after. rewrite Heq, settle_untouched; [exact Hkept|].
        now rewrite Hkeys.
      * intros k' tracking' Hin' Hget'.
        apply in_map_iff in Hin'. destruct Hin' as [[k2 t2] [Hk2 Hin2]].
        simpl in Hk2. subst k2.
        assert (Ht2 : t2 = tracking').
        { apply firstn_incl in Hin2.
          apply (Permutation_in _ Hperm) in Hin2.
          destruct (dueForCheck_get currentTime m k' t2 Hnd Hin2) as [Hg _].
          congruence. }
        subst t2.
        assert (Hrest : In (k, tracking) (skipn 2 sorted)).
        { apply (Permutation_in _ (Permutation_sym Hperm)) in Hin.
          rewrite <- (firstn_skipn 2 sorted) in Hin.
          apply in_app_or in Hin. destruct Hin as [Hin | Hin]; [|exact Hin].
          exfalso. apply Hout. change k with (fst (k, tracking)).
          now apply in_map. }
        exact (sorted_prefix_dominates sorted 2 _ _ Hsorted Hin2 Hrest).
  - split; [intros Hfew; now rewrite Hfetched, limit_few|].
    intros k tracking Hin Hget.
    exact (checked_entries_end_as_checkOf w currentTime m s Hnd Hq k tracking Hin Hget).
Qed.

Lemma critical_usage_checks_two_most_recent_witness :
  NoDup (map fst sampleRegistry)
  /\ fst (FlightService.canMakeRequest november criticalTracker) = true
  /\ fst (FlightService.shouldLimitTracking november criticalTracker) = true
  /\ (2 < List.length (dueForCheck november sampleRegistry))%nat
  /\ List.length (fetched (checkFlightUpdates sampleWorld november sampleRegistry
                                              criticalTracker)) = 2%nat
  /\ fetched (checkFlightUpdates sampleWorld november sampleRegistry criticalTracker)
     = ["AA1_C2"; "UA400_C2"]
  /\ get "AA1_C2" (trackedFlights (checkFlightUpdates sampleWorld november
                                      sampleRegistry criticalTracker))
     = Some (fst (fst (checkSingleFlight
                         (provider sampleWorld "AA1_C2")
                         (tracked "AA1" "C2" "Scheduled" (minutesBefore 6 november) 0 false)
                         november (answered sampleWorld "AA1_C2") criticalTracker)))
  /\ option_map TrackedFlight.lastUpdated
       (get "AA1_C2" (trackedFlights (checkFlightUpdates sampleWorld november
                                        sampleRegistry criticalTracker)))
     = Some (getTime novemberLater)
  /\ option_map TrackedFlight.lastUpdated (get "AA1_C2" sampleRegistry)
     = Some (minutesBefore 6 november).
Proof.
  assert (H2 : fst (FlightService.canMakeRequest november criticalTracker) = true)
    by reflexivity.
  assert (H3 : fst (FlightService.shouldLimitTracking november criticalTracker) = true)
    by reflexivity.
  assert (H4 : (2 < List.length (dueForCheck november sampleRegistry))%nat)
    by (vm_compute; lia).
  split; [exact sampleRegistry_NoDup|]. split; [exact H2|]. split; [exact H3|].
  split; [exact H4|].
  split; [exact (proj1 (proj1 (critical_usage_checks_two_most_recent
                         sampleWorld november sampleRegistry criticalTracker
                         sampleRegistry_NoDup H2 H3) H4))|].
  split; [vm_compute; reflexivity|].
  split; [apply (proj2 (proj2 (critical_usage_checks_two_most_recent
                         sampleWorld november sampleRegistry criticalTracker
                         sampleRegistry_NoDup H2 H3)));
          vm_compute; auto|].
  split; vm_compute; reflexivity.
Defined.



(** X29. Below the critical share of the quota nothing is left out: a cycle
    that passes the quota gate with [shouldLimitTracking()] false calls
    [getFlightData] for every entry that is due, in registry order, and
    every due entry ends the cycle as [checkSingleFlight] leaves it. *)
Theorem healthy_cycle_checks_every_due_entry
        (w : World) (currentTime : Clock) (m : Registry) (s : ApiUsageTracker.t) :
  NoDup (map fst m) ->
  fst (FlightService.canMakeRequest currentTime s) = true ->
  fst (FlightService.shouldLimitTracking currentTime s) = false ->
  let after := checkFlightUpdates w currentTime m s in
  fetched after = map fst (dueForCheck currentTime m)
  /\ forall (k : string) (tracking : TrackedFlight.t),
       In (k, tracking) (dueForCheck currentTime m) ->
       get k (trackedFlights after)
       = Some (fst (fst (checkSingleFlight (provider w k) tracking currentTime
                           (answered w k) s))).
Proof.
  intros Hnd Hq Hl after.
  assert (Hf : fetched after = map fst (dueForCheck currentTime m)).
  { subst after. rewrite (checkFlightUpdates_launched w currentTime m s Hq).
    cbv zeta. rewrite settle_fetched. cbn [fetched]. now rewrite Hl. }
  split; [exact Hf|].
  intros k tracking Hin.
  apply (checked_entries_end_as_checkOf w currentTime m s Hnd Hq k tracking).
  - fold after. rewrite Hf. change k with (fst (k, tracking)). now apply in_map.
  - exact (proj1 (dueForCheck_get currentTime m k tracking Hnd Hin)).
Qed.

Lemma healthy_cycle_checks_every_due_entry_witness :
  NoDup (map fst sampleRegistry)
  /\ fst (FlightService.canMakeRequest november healthyTracker) = true
  /\ fst (FlightService.shouldLimitTracking november healthyTracker) = false
  /\ fetched (checkFlightUpdates sampleWorld november sampleRegistry healthyTracker)
     = map fst (dueForCheck november sampleRegistry)
  /\ In ("DL123_C1", tracked "DL123" "C1" "Active" (minutesBefore 20 november) 1 false)
        (dueForCheck november sampleRegistry)
  /\ get "DL123_C1" (trackedFlights (checkFlightUpdates sampleWorld november
                                        sampleRegistry healthyTracker))
     = Some (fst (fst (checkSingleFlight
                         (provider sampleWorld "DL123_C1")
                         (tracked "DL123" "C1" "Active" (minutesBefore 20 november) 1 false)
                         november (answered sampleWorld "DL123_C1") healthyTracker)))
  /\ option_map TrackedFlight.lastUpdated
       (get "DL123_C1" (trackedFlights (checkFlightUpdates sampleWorld november
                                          sampleRegistry healthyTracker)))
     = Some (getTime novemberLater).
Proof.
  assert (H1 : fst (FlightService.canMakeRequest november healthyTracker) = true)
    by reflexivity.
  assert (H2 : fst (FlightService.shouldLimitTracking november healthyTracker) = false)
    by reflexivity.
  assert (H3 : In ("DL123_C1",
                   tracked "DL123" "C1" "Active" (minutesBefore 20 november) 1 false)
                  (dueForCheck november sampleRegistry))
    by (vm_compute; auto).
  split; [exact sampleRegistry_NoDup|]. split; [exact H1|]. split; [exact H2|].
  split; [exact (proj1 (healthy_cycle_checks_every_due_entry
                          sampleWorld november sampleRegistry healthyTracker
                          sampleRegistry_NoDup H1 H2))|].
  split; [exact H3|].
  split; [exact (proj2 (healthy_cycle_checks_every_due_entry
                          sampleWorld november sampleRegistry healthyTracker
                          sampleRegistry_NoDup H1 H2) _ _ H3)
         | vm_compute; reflexivity].
Defined.

End CycleChecks.
